(** * The video automation pipeline of [main.py]

    A shallow embedding of [VideoGenerator.generate], [SheetsLogger],
    [YouTubeUploader.upload] and [run_pipeline], and the properties of the
    retry loop, of the per-idea loop and of the records they produce.

    The program talks to four services (the Anthropic API, the Hugging Face
    inference endpoint, Google Sheets and YouTube), reads the clock and
    writes video files.  Every such call is answered by an oracle of the
    environment [Env], indexed by the number of calls made to that service
    so far; the program state [State] carries those counters, the log of
    [time.sleep] durations, the files on disk, the spreadsheet, the console
    lines that mark an outcome, and the [stats] dictionary.

    Python exceptions are values of [exn].  [except Exception] catches
    [Exception] and lets [KeyboardInterrupt] through.  Python [int] is [Z];
    a Python [str] is a [string], one element per character. *)

From Stdlib Require Import Ascii ZArith Lia.
From stdpp Require Import base option list strings pretty gmap.

Local Open Scope string_scope.
Local Open Scope list_scope.
Local Open Scope Z_scope.

(** ** Exceptions and results *)

Inductive exn : Type :=
| Exception (msg : string)   (* an instance of Exception; [msg] is str(e) *)
| KeyboardInterrupt.         (* a BaseException outside Exception *)

Inductive result (A : Type) : Type :=
| Ok (a : A)
| Raise (e : exn).
Arguments Ok {A} a.
Arguments Raise {A} e.

(** ** Data *)

(** An idea is a dict decoded from JSON: any of its keys may be absent. *)
Record Idea : Type := mkIdea {
  title : option string;
  description : option string;
  hook : option string;
  target_audience : option string;
  virality_score : option Z;
  keywords : option (list string)
}.

(** The answer of [requests.post]. *)
Record Response : Type := mkResponse {
  status_code : Z;
  content : string
}.

(** The [body] argument of [videos().insert]. *)
Record Body : Type := mkBody {
  snippet_title : string;
  snippet_description : string;
  snippet_tags : list string;
  snippet_categoryId : string;
  status_privacyStatus : string;
  status_madeForKids : bool;
  status_selfDeclaredMadeForKids : bool
}.

Inductive cell : Type :=
| CStr (s : string)
| CInt (z : Z).

(** The [stats] dictionary of [run_pipeline] ([start_time], a float used
    only to print the elapsed minutes, is left out). *)
Record Stats : Type := mkStats {
  total : Z;
  successful : Z;
  failed : Z
}.

(** Console lines that report an outcome (the decorative [print]s are not
    modelled). *)
Inductive line : Type :=
| InitFailed (e : string)            (* "Failed to initialize clients: e" *)
| GeneratedIdeas (n : nat)           (* "Generated n ideas" *)
| FailedAfter (max_retries : Z)      (* "Failed after n retries" *)
| CleanedUp (video_path : string)    (* "Cleaned up: path" *)
| VideoCompleted (i : nat)           (* "VIDEO i COMPLETED SUCCESSFULLY!" *)
| VideoFailed (i : nat) (e : string) (* "VIDEO i FAILED: e" *)
| Summary (s t f : Z)                (* "Successful: s/t", "Failed: f/t" *)
| PipelineCompleted                  (* "Pipeline completed! ..." *)
| NoVideosPublished                  (* "No videos were published. ..." *)
| PipelineFailed (e : string).       (* "Pipeline failed: e" *)

Record State : Type := mkState {
  claude_calls : nat;                   (* messages.create calls so far *)
  hf_calls : nat;                       (* requests.post calls so far *)
  youtube_calls : nat;                  (* videos().insert uploads so far *)
  sheets_calls : nat;                   (* gspread API calls so far *)
  clock_reads : nat;                    (* datetime.now() calls so far *)
  slept : list Z;                       (* time.sleep arguments, oldest first *)
  files : gmap string string;           (* working directory: path to content *)
  sheet : gmap string (list (list cell)); (* worksheet name to its rows *)
  stdout : list line;                   (* oldest first *)
  stats : Stats
}.

(** The environment: what each external call answers. *)
Record Env : Type := mkEnv {
  init_clients : result unit;
  messages_ideas : nat -> Z -> string -> result (list Idea);
  messages_prompt : nat -> string -> string -> string -> string -> result string;
  requests_post : nat -> string -> result Response;
  disk_write : nat -> result unit;  (* saving the answer of request n *)
  disk_left : nat -> option nat;    (* what a failed save leaves behind *)
  now : nat -> string -> string;
  videos_insert : nat -> string -> Body -> result string;
  gspread_call : nat -> result unit
}.

(** ** Configuration ([class Config]) *)

Definition NUM_IDEAS : Z := 3.
Definition MAX_RETRIES : Z := 10.
Definition RETRY_WAIT : Z := 20.

(** ** The state-and-exception monad *)

Definition M (A : Type) : Type := State -> result A * State.

Definition ret {A} (a : A) : M A := fun st => (Ok a, st).

Definition raise {A} (e : exn) : M A := fun st => (Raise e, st).

Definition bind {A B} (m : M A) (k : A -> M B) : M B :=
  fun st =>
    match m st with
    | (Ok a, st') => k a st'
    | (Raise e, st') => (Raise e, st')
    end.

Notation "'let!' x ':=' c 'in' k" := (bind c (fun x => k))
  (at level 10, x pattern, c at level 100, k at level 200).
Notation "c ;; k" := (bind c (fun _ => k))
  (at level 100, k at level 200, right associativity).

(** [try: body  except Exception as e: handler e]. *)
Definition try_except {A} (body : M A) (handler : string -> M A) : M A :=
  fun st =>
    match body st with
    | (Raise (Exception e), st') => handler e st'
    | r => r
    end.

Definition of_result {A} (r : result A) : M A := fun st => (r, st).

(** [d[k]] on a dict: [KeyError(k)], whose [str] is the quoted key. *)
Definition getitem {A} (k : string) (v : option A) : M A :=
  match v with
  | Some a => ret a
  | None => raise (Exception ("'" +:+ k +:+ "'"))
  end.

(** ** State updates *)

Definition set_claude_calls (n : nat) (st : State) : State :=
  mkState n (hf_calls st) (youtube_calls st) (sheets_calls st) (clock_reads st)
          (slept st) (files st) (sheet st) (stdout st) (stats st).
Definition set_hf_calls (n : nat) (st : State) : State :=
  mkState (claude_calls st) n (youtube_calls st) (sheets_calls st) (clock_reads st)
          (slept st) (files st) (sheet st) (stdout st) (stats st).
Definition set_youtube_calls (n : nat) (st : State) : State :=
  mkState (claude_calls st) (hf_calls st) n (sheets_calls st) (clock_reads st)
          (slept st) (files st) (sheet st) (stdout st) (stats st).
Definition set_sheets_calls (n : nat) (st : State) : State :=
  mkState (claude_calls st) (hf_calls st) (youtube_calls st) n (clock_reads st)
          (slept st) (files st) (sheet st) (stdout st) (stats st).
Definition set_clock_reads (n : nat) (st : State) : State :=
  mkState (claude_calls st) (hf_calls st) (youtube_calls st) (sheets_calls st) n
          (slept st) (files st) (sheet st) (stdout st) (stats st).
Definition set_slept (l : list Z) (st : State) : State :=
  mkState (claude_calls st) (hf_calls st) (youtube_calls st) (sheets_calls st)
          (clock_reads st) l (files st) (sheet st) (stdout st) (stats st).
Definition set_files (f : gmap string string) (st : State) : State :=
  mkState (claude_calls st) (hf_calls st) (youtube_calls st) (sheets_calls st)
          (clock_reads st) (slept st) f (sheet st) (stdout st) (stats st).
Definition set_sheet (s : gmap string (list (list cell))) (st : State) : State :=
  mkState (claude_calls st) (hf_calls st) (youtube_calls st) (sheets_calls st)
          (clock_reads st) (slept st) (files st) s (stdout st) (stats st).
Definition set_stdout (o : list line) (st : State) : State :=
  mkState (claude_calls st) (hf_calls st) (youtube_calls st) (sheets_calls st)
          (clock_reads st) (slept st) (files st) (sheet st) o (stats st).
Definition set_stats (s : Stats) (st : State) : State :=
  mkState (claude_calls st) (hf_calls st) (youtube_calls st) (sheets_calls st)
          (clock_reads st) (slept st) (files st) (sheet st) (stdout st) s.

Definition modify (f : State -> State) : M unit := fun st => (Ok tt, f st).

Definition gets {A} (f : State -> A) : M A := fun st => (Ok (f st), st).

(** A call to a service: its answer is read off the state the call is made
    in, and the call is counted. *)
Definition call {A} (answer : State -> result A) (count : State -> State)
    : M A :=
  fun st => (answer st, count st).

(** [print] of one of the modelled lines. *)
Definition print (l : line) : M unit :=
  modify (fun st => set_stdout (stdout st ++ [l]) st).

(** [time.sleep(seconds)]. *)
Definition sleep (seconds : Z) : M unit :=
  modify (fun st => set_slept (slept st ++ [seconds]) st).

(** ** Text helpers *)

(** [s.replace(c, '')] for a one-character [c]. *)
Fixpoint remove_char (c : Ascii.ascii) (s : string) : string :=
  match s with
  | EmptyString => EmptyString
  | String a s' =>
      if Ascii.eqb a c then remove_char c s' else String a (remove_char c s')
  end.

(** [s[:n]]: the first [n] characters, or all of [s] when it is shorter. *)
Fixpoint str_take (n : nat) (s : string) : string :=
  match n, s with
  | S n', String a s' => String a (str_take n' s')
  | _, _ => EmptyString
  end.

(** ** Cleaning the answer of the idea model ([generate_ideas], lines
    100-106) *)

(** [c.isspace()] for the characters below 256: the ASCII white space,
    the four separators 28-31, NEL and the no-break space. *)
Definition isspace (c : Ascii.ascii) : bool :=
  let n := Ascii.nat_of_ascii c in
  ((9 <=? n) && (n <=? 13) || (28 <=? n) && (n <=? 32) ||
   (n =? 133) || (n =? 160))%nat.

Fixpoint lstrip (s : string) : string :=
  match s with
  | EmptyString => EmptyString
  | String a s' => if isspace a then lstrip s' else s
  end.

Fixpoint rstrip (s : string) : string :=
  match s with
  | EmptyString => EmptyString
  | String a s' =>
      match rstrip s' with
      | EmptyString => if isspace a then EmptyString else String a EmptyString
      | r => String a r
      end
  end.

(** [s.strip()]. *)
Definition strip (s : string) : string := rstrip (lstrip s).

(** [s[n:]]. *)
Fixpoint str_drop (n : nat) (s : string) : string :=
  match n, s with
  | S n', String _ s' => str_drop n' s'
  | _, _ => s
  end.

(** The text before the first occurrence of [sep] in [s] and, when there
    is one, the text after it. *)
Fixpoint cut (sep s : string) : string * option string :=
  if String.prefix sep s then
    (EmptyString, Some (str_drop (String.length sep) s))
  else
    match s with
    | EmptyString => (EmptyString, None)
    | String a s' => let (before, rest) := cut sep s' in (String a before, rest)
    end.

(** [sep in s], for a [sep] that is not empty. *)
Definition contains (sep s : string) : bool :=
  match snd (cut sep s) with
  | Some _ => true
  | None => false
  end.

(** [s.split(sep)], for a [sep] that is not empty: the pieces between the
    occurrences of [sep], found from the left.  Every occurrence shortens
    the text, so [String.length s] steps are enough. *)
Fixpoint split_fuel (fuel : nat) (sep s : string) : list string :=
  match cut sep s with
  | (before, None) => [before]
  | (before, Some rest) =>
      match fuel with
      | O => [before]
      | S fuel' => before :: split_fuel fuel' sep rest
      end
  end.

Definition split (sep s : string) : list string :=
  split_fuel (String.length s) sep s.

(** [l[k]]: [IndexError] when [k] is out of range. *)
Definition item (l : list string) (k : nat) : result string :=
  match nth_error l k with
  | Some x => Ok x
  | None => Raise (Exception "list index out of range")
  end.

(** Lines 102-106: the text between the Markdown fences, when there are
    any. *)
Definition clean_markdown (content : string) : result string :=
  if contains "```json" content then
    match item (split "```json" content) 1 with
    | Ok fenced =>
        match item (split "```" fenced) 0 with
        | Ok json => Ok (strip json)
        | Raise e => Raise e
        end
    | Raise e => Raise e
    end
  else if contains "```" content then
    match item (split "```" content) 1 with
    | Ok fenced =>
        match item (split "```" fenced) 0 with
        | Ok json => Ok (strip json)
        | Raise e => Raise e
        end
    | Raise e => Raise e
    end
  else Ok content.

(** Lines 100-106: the text that is handed to [json.loads]. *)
Definition response_json (text : string) : result string :=
  clean_markdown (strip text).

Section Program.

Variable env : Env.

(** [datetime.now().strftime(fmt)]. *)
Definition strftime (fmt : string) : M string :=
  call (fun st => Ok (now env (clock_reads st) fmt))
       (fun st => set_clock_reads (S (clock_reads st)) st).

(** ** [VideoGenerator.generate] *)

(** [requests.post(self.model_url, headers, json=payload, timeout=300)]:
    a response, or an exception (connection error, timeout). *)
Definition post (prompt : string) : M Response :=
  call (fun st => requests_post env (hf_calls st) prompt)
       (fun st => set_hf_calls (S (hf_calls st)) st).

(** [with open(video_path, "wb") as f: f.write(content)] followed by
    [os.path.getsize(video_path)], for the answer of the latest request
    (request number [hf_calls st - 1]).  When the save raises, [disk_left]
    says what it leaves at the path: nothing when [open] itself failed,
    otherwise the file that [open] created, holding the first characters
    that [write] got out (none of them, or all of them when only
    [getsize] failed). *)
Definition write_file (video_path data : string) : M unit :=
  fun st =>
    let n := Nat.pred (hf_calls st) in
    match disk_write env n with
    | Ok _ => (Ok tt, set_files (<[video_path := data]> (files st)) st)
    | Raise e =>
        (Raise e,
         match disk_left env n with
         | Some written =>
             set_files (<[video_path := str_take written data]> (files st)) st
         | None => st
         end)
    end.

(** How one iteration of the [while] loop ends. *)
Inductive step : Type :=
| Retry (retry_count : Z)      (* back to the loop test *)
| Return (video_path : string). (* [return video_path] *)

(** The body of the [while] loop, lines 187-223. *)
Definition attempt (prompt : string) (retry_count : Z) : M step :=
  try_except
    (let! response := post prompt in
     if status_code response =? 503 then
       let retry_count := retry_count + 1 in
       let wait_time := RETRY_WAIT * retry_count in
       sleep wait_time ;;
       ret (Retry retry_count)
     else if status_code response =? 200 then
       let! timestamp := strftime "%Y%m%d_%H%M%S" in
       let video_path := "video_" +:+ timestamp +:+ ".mp4" in
       write_file video_path (content response) ;;
       ret (Return video_path)
     else
       let retry_count := retry_count + 1 in
       sleep RETRY_WAIT ;;
       ret (Retry retry_count))
    (fun e =>
       let retry_count := retry_count + 1 in
       sleep RETRY_WAIT ;;
       ret (Retry retry_count)).

(** [while retry_count < max_retries: ...] and the two lines after it.
    Every iteration that does not return adds one to [retry_count], so
    [max_retries - retry_count] iterations are enough: [fuel] only makes
    the recursion structural (see [generate_loop_fuel]). *)
Fixpoint generate_loop (fuel : nat) (prompt : string)
    (max_retries retry_count : Z) : M (option string) :=
  if retry_count <? max_retries then
    match fuel with
    | O => ret None
    | S fuel' =>
        let! s := attempt prompt retry_count in
        match s with
        | Retry retry_count' => generate_loop fuel' prompt max_retries retry_count'
        | Return video_path => ret (Some video_path)
        end
    end
  else
    print (FailedAfter max_retries) ;; ret None.

Definition generate (prompt : string) (max_retries : Z) : M (option string) :=
  generate_loop (Z.to_nat max_retries) prompt max_retries 0.

(** ** [ClaudeClient] *)

(** [self.client.messages.create(...)] for the ideas, with the JSON of the
    answer decoded: the list under ["ideas"], or an exception. *)
Definition generate_ideas (num_ideas : Z) : M (list Idea) :=
  let! today := strftime "%B %d, %Y" in
  try_except
    (call (fun st => messages_ideas env (claude_calls st) num_ideas today)
          (fun st => set_claude_calls (S (claude_calls st)) st))
    (fun e => raise (Exception e)).

(** The f-string reads four keys of the idea before the request is made. *)
Definition generate_video_prompt (idea : Idea) : M string :=
  let! t := getitem "title" (title idea) in
  let! d := getitem "description" (description idea) in
  let! h := getitem "hook" (hook idea) in
  let! a := getitem "target_audience" (target_audience idea) in
  try_except
    (call (fun st => messages_prompt env (claude_calls st) t d h a)
          (fun st => set_claude_calls (S (claude_calls st)) st))
    (fun e => raise (Exception e)).

(** ** [SheetsLogger] *)

(** One round trip to the Sheets API. *)
Definition api_call : M unit :=
  call (fun st => gspread_call env (sheets_calls st))
       (fun st => set_sheets_calls (S (sheets_calls st)) st).

(** [self.sheet.worksheet(name)]; [None] stands for [WorksheetNotFound]. *)
Definition worksheet (name : string) : M (option string) :=
  api_call ;;
  gets (fun st => match sheet st !! name with
                  | Some _ => Some name
                  | None => None
                  end).

Definition add_worksheet (name : string) : M string :=
  api_call ;;
  modify (fun st => set_sheet (<[name := []]> (sheet st)) st) ;;
  ret name.

Definition append_row (ws : string) (row : list cell) : M unit :=
  api_call ;;
  modify (fun st => set_sheet (alter (fun rows : list (list cell) => rows ++ [row]) ws (sheet st)) st).

Definition _get_or_create_worksheet (name : string) (headers : list string)
    : M string :=
  let! found := worksheet name in
  match found with
  | Some ws => ret ws
  | None =>
      let! ws := add_worksheet name in
      append_row ws (map CStr headers) ;;
      ret ws
  end.

Definition log_idea (idea : Idea) : M unit :=
  try_except
    (let! ws := _get_or_create_worksheet "Ideas_Log"
                  ["Timestamp"; "Title"; "Description"; "Hook";
                   "Target Audience"; "Virality Score"; "Keywords"; "Status"] in
     let! ts := strftime "%Y-%m-%d %H:%M:%S" in
     let! t := getitem "title" (title idea) in
     let! d := getitem "description" (description idea) in
     let! h := getitem "hook" (hook idea) in
     let! a := getitem "target_audience" (target_audience idea) in
     let! v := getitem "virality_score" (virality_score idea) in
     let! kws := getitem "keywords" (keywords idea) in
     append_row ws [CStr ts; CStr t; CStr d; CStr h; CStr a; CInt v;
                    CStr (String.concat ", " kws); CStr "pending"])
    (fun e => ret tt).

Definition log_video (idea : Idea) (youtube_id youtube_url : string) : M unit :=
  try_except
    (let! ws := _get_or_create_worksheet "Videos_Log"
                  ["Timestamp"; "Title"; "YouTube URL"; "YouTube ID";
                   "Status"; "Virality Score"; "Keywords"] in
     let! ts := strftime "%Y-%m-%d %H:%M:%S" in
     let! t := getitem "title" (title idea) in
     let! v := getitem "virality_score" (virality_score idea) in
     let! kws := getitem "keywords" (keywords idea) in
     append_row ws [CStr ts; CStr t; CStr youtube_url; CStr youtube_id;
                    CStr "published"; CInt v; CStr (String.concat ", " kws)])
    (fun e => ret tt).

(** The row that [log_error] appends. *)
Definition error_row (ts : string) (idea : Idea) (error : string) : list cell :=
  [CStr ts; CStr (default "Unknown" (title idea));
   CStr (str_take 500 error); CStr "video_generation"].

Definition log_error (idea : Idea) (error : string) : M unit :=
  try_except
    (let! ws := _get_or_create_worksheet "Errors_Log"
                  ["Timestamp"; "Title"; "Error"; "Stage"] in
     let! ts := strftime "%Y-%m-%d %H:%M:%S" in
     append_row ws (error_row ts idea error))
    (fun e => ret tt).

(** ** [YouTubeUploader.upload] *)

(** [kw.replace(' ', '')]. *)
Definition remove_spaces (kw : string) : string := remove_char Ascii.Space kw.

Definition base_tags : list string :=
  ["motivation"; "success"; "mindset"; "shorts"; "viral"; "selfimprovement"].

(** Lines 345-374: the title, description and tags that are sent. *)
Definition upload_body (idea : Idea) : M Body :=
  let! t := getitem "title" (title idea) in
  let title := str_take 100 t in
  let! kws := getitem "keywords" (keywords idea) in
  let keyword_tags :=
    String.concat " " (map (fun kw => "#" +:+ remove_spaces kw) (take 5 kws)) in
  let! d := getitem "description" (description idea) in
  let! h := getitem "hook" (hook idea) in
  let description :=
    d +:+ "

🔥 " +:+ h +:+ "

" +:+ keyword_tags +:+ "

#motivation #success #mindset #shorts #viral #selfimprovement" in
  let tags := base_tags ++ map remove_spaces (take 5 kws) in
  ret {| snippet_title := title;
         snippet_description := description;
         snippet_tags := take 15 tags;
         snippet_categoryId := "22";
         status_privacyStatus := "public";
         status_madeForKids := false;
         status_selfDeclaredMadeForKids := false |}.

(** The resumable upload ([MediaFileUpload], [insert], the [next_chunk]
    loop) is one answer of the service: the id of the video, or an
    exception. *)
Definition upload (video_path : string) (idea : Idea) : M (string * string) :=
  let! body := upload_body idea in
  try_except
    (let! video_id :=
       call (fun st => videos_insert env (youtube_calls st) video_path body)
            (fun st => set_youtube_calls (S (youtube_calls st)) st) in
     let video_url := "https://youtube.com/watch?v=" +:+ video_id in
     ret (video_id, video_url))
    (fun e => raise (Exception e)).

(** ** [run_pipeline] *)

Definition add_total (st : State) : State :=
  set_stats (mkStats (total (stats st) + 1) (successful (stats st))
                     (failed (stats st))) st.
Definition add_successful (st : State) : State :=
  set_stats (mkStats (total (stats st)) (successful (stats st) + 1)
                     (failed (stats st))) st.
Definition add_failed (st : State) : State :=
  set_stats (mkStats (total (stats st)) (successful (stats st))
                     (failed (stats st) + 1)) st.

(** [if os.path.exists(video_path): os.remove(video_path); print(...)]. *)
Definition cleanup (video_path : string) : M unit :=
  let! found := gets (fun st => files st !! video_path) in
  match found with
  | Some _ =>
      modify (fun st => set_files (delete video_path (files st)) st) ;;
      print (CleanedUp video_path)
  | None => ret tt
  end.

(** The [try] block of the second loop, lines 479-506. *)
Definition try_block (i : nat) (idea : Idea) : M unit :=
  let! video_prompt := generate_video_prompt idea in
  let! video_path := generate video_prompt MAX_RETRIES in
  match video_path with
  | None => raise (Exception "Video generation returned None")
  | Some video_path =>
      let! (video_id, video_url) := upload video_path idea in
      log_video idea video_id video_url ;;
      cleanup video_path ;;
      modify add_successful ;;
      print (VideoCompleted i)
  end.

(** Its [except Exception as e] block, lines 509-514. *)
Definition except_block (i : nat) (idea : Idea) (e : string) : M unit :=
  modify add_failed ;;
  print (VideoFailed i e) ;;
  log_error idea e.

(** The body of the second [for] loop, lines 467-514, for the idea
    numbered [i]. *)
Definition process_idea (i : nat) (idea : Idea) : M unit :=
  modify add_total ;;
  getitem "title" (title idea) ;;
  getitem "hook" (hook idea) ;;
  getitem "target_audience" (target_audience idea) ;;
  getitem "virality_score" (virality_score idea) ;;
  try_except (try_block i idea) (except_block i idea).

(** [for i, idea in enumerate(ideas, 1)], lines 466-514. *)
Fixpoint process_ideas (i : nat) (ideas : list Idea) : M unit :=
  match ideas with
  | [] => ret tt
  | idea :: rest => process_idea i idea ;; process_ideas (S i) rest
  end.

(** The first [for] loop, lines 460-462. *)
Fixpoint log_ideas (ideas : list Idea) : M unit :=
  match ideas with
  | [] => ret tt
  | idea :: rest =>
      getitem "title" (title idea) ;; log_idea idea ;; log_ideas rest
  end.

(** Lines 517-532. *)
Definition summary : M unit :=
  let! st := gets stats in
  print (Summary (successful st) (total st) (failed st)) ;;
  if successful st >? 0 then print PipelineCompleted
  else print NoVideosPublished.

(** Lines 434-441: the four clients are built; on an exception the run
    prints it and returns. *)
Definition initialize : M bool :=
  try_except
    (of_result (init_clients env) ;; ret true)
    (fun e => print (InitFailed e) ;; ret false).

Definition run_pipeline : M unit :=
  strftime "%B %d, %Y at %I:%M %p" ;;
  let! ready := initialize in
  if ready then
    modify (set_stats (mkStats 0 0 0)) ;;
    try_except
      (let! ideas := generate_ideas NUM_IDEAS in
       print (GeneratedIdeas (length ideas)) ;;
       log_ideas ideas ;;
       process_ideas 1 ideas ;;
       summary)
      (fun e => print (PipelineFailed e) ;; raise (Exception e))
  else ret tt.

End Program.

(** * Specification vocabulary *)

(** The three-way answer of one poll, as the specification names it, read
    off the environment for request number [n]; [Interrupted] is the case
    outside the three: the call was interrupted. *)
Inductive JobOutcome : Type :=
| Ready (artifact : string)
| NotReady
| Failed (reason : string)
| Interrupted.

Definition poll_outcome (env : Env) (n : nat) (prompt : string) : JobOutcome :=
  match requests_post env n prompt with
  | Raise (Exception e) => Failed e
  | Raise KeyboardInterrupt => Interrupted
  | Ok response =>
      if status_code response =? 503 then NotReady
      else if status_code response =? 200 then
        match disk_write env n with
        | Ok _ => Ready (content response)
        | Raise (Exception e) => Failed e
        | Raise KeyboardInterrupt => Interrupted
        end
      else Failed "API Error"
  end.

Definition retryable (o : JobOutcome) : Prop :=
  match o with
  | NotReady | Failed _ => True
  | _ => False
  end.

(** The pause that follows an answer, once the counter has been raised to
    [retry_count]. *)
Definition wait_after (o : JobOutcome) (retry_count : Z) : Z :=
  match o with
  | NotReady => RETRY_WAIT * retry_count
  | _ => RETRY_WAIT
  end.

(** The pauses of [k] consecutive polls starting at request [n], the
    counter standing at [retry_count] before the first of them. *)
Fixpoint waits (env : Env) (prompt : string) (n : nat) (retry_count : Z)
    (k : nat) : list Z :=
  match k with
  | O => []
  | S k' =>
      wait_after (poll_outcome env n prompt) (retry_count + 1)
      :: waits env prompt (S n) (retry_count + 1) k'
  end.

(** [base_wait * 1, ..., base_wait * k]. *)
Definition linear_waits (k : nat) : list Z :=
  map (fun j => RETRY_WAIT * Z.of_nat j) (seq 1 k).

(** What [k] polls that all ask for a retry leave behind. *)
Record retried (k : nat) (ws : list Z) (st st' : State) : Prop := {
  retried_hf : hf_calls st' = (hf_calls st + k)%nat;
  retried_slept : slept st' = slept st ++ ws;
  retried_claude : claude_calls st' = claude_calls st;
  retried_youtube : youtube_calls st' = youtube_calls st;
  retried_sheets : sheets_calls st' = sheets_calls st;
  retried_sheet : sheet st' = sheet st;
  retried_stdout : stdout st' = stdout st;
  retried_stats : stats st' = stats st
}.

(** The lines that settle an idea. *)
Definition is_outcome (l : line) : bool :=
  match l with
  | VideoCompleted _ | VideoFailed _ _ => true
  | _ => false
  end.

Definition outcomes (out : list line) : list line := List.filter is_outcome out.

(** A step that neither touches [stats] nor settles an idea. *)
Record scored (st st' : State) : Prop := {
  scored_stats : stats st' = stats st;
  scored_outcomes : outcomes (stdout st') = outcomes (stdout st)
}.

(** No call of the run is interrupted. *)
Record no_interrupt (env : Env) : Prop := {
  ni_init : init_clients env <> Raise KeyboardInterrupt;
  ni_ideas : forall n k today,
    messages_ideas env n k today <> Raise KeyboardInterrupt;
  ni_prompt : forall n t d h a,
    messages_prompt env n t d h a <> Raise KeyboardInterrupt;
  ni_post : forall n p, requests_post env n p <> Raise KeyboardInterrupt;
  ni_disk : forall n, disk_write env n <> Raise KeyboardInterrupt;
  ni_insert : forall n path body,
    videos_insert env n path body <> Raise KeyboardInterrupt;
  ni_gspread : forall n, gspread_call env n <> Raise KeyboardInterrupt
}.

(** A computation that leaves the score alone and is never interrupted. *)
Definition tame {A} (m : M A) : Prop :=
  forall st, scored st (snd (m st)) /\ fst (m st) <> Raise KeyboardInterrupt.

(** The keys that the second loop prints before its [try]. *)
Definition displayable (idea : Idea) : Prop :=
  is_Some (title idea) /\ is_Some (hook idea) /\
  is_Some (target_audience idea) /\ is_Some (virality_score idea).

(** The rows of a worksheet (none when it does not exist). *)
Definition rows_of (name : string) (st : State) : list (list cell) :=
  default [] (sheet st !! name).

(** The three stages of an idea all succeed from [st]: the prompt is
    derived, the video is generated into [video_path], YouTube returns
    [ids]; [st3] is the state after the upload. *)
Definition stages_succeed (env : Env) (idea : Idea) (st : State)
    (video_path : string) (ids : string * string) (st3 : State) : Prop :=
  exists video_prompt st1 st2,
    generate_video_prompt env idea st = (Ok video_prompt, st1) /\
    generate env video_prompt MAX_RETRIES st1 = (Ok (Some video_path), st2) /\
    upload env video_path idea st2 = (Ok ids, st3).

(** One of the three stages fails from [st] with message [e], leaving
    [st']. *)
Inductive stage_failure (env : Env) (idea : Idea) (st : State) (e : string)
    (st' : State) : Prop :=
| prompt_failed :
    generate_video_prompt env idea st = (Raise (Exception e), st') ->
    stage_failure env idea st e st'
| generation_failed video_prompt st1 :
    generate_video_prompt env idea st = (Ok video_prompt, st1) ->
    generate env video_prompt MAX_RETRIES st1 = (Ok None, st') ->
    e = "Video generation returned None" ->
    stage_failure env idea st e st'
| publish_failed video_prompt st1 video_path st2 :
    generate_video_prompt env idea st = (Ok video_prompt, st1) ->
    generate env video_prompt MAX_RETRIES st1 = (Ok (Some video_path), st2) ->
    upload env video_path idea st2 = (Raise (Exception e), st') ->
    stage_failure env idea st e st'.

(** How the second loop settles the idea numbered [i]: it is counted once
    in [total] and once in [successful] or in [failed], and one line says
    which; a failure is the failure of a stage, and its message goes to
    [log_error]. *)
Inductive settled (env : Env) (i : nat) (idea : Idea) (st st' : State) : Prop :=
| settled_published video_path ids st3 :
    stages_succeed env idea (add_total st) video_path ids st3 ->
    stats st' = mkStats (total (stats st) + 1) (successful (stats st) + 1)
                        (failed (stats st)) ->
    outcomes (stdout st') = outcomes (stdout st) ++ [VideoCompleted i] ->
    settled env i idea st st'
| settled_failed e st2 :
    stage_failure env idea (add_total st) e st2 ->
    stats st' = mkStats (total (stats st) + 1) (successful (stats st))
                        (failed (stats st) + 1) ->
    outcomes (stdout st') = outcomes (stdout st) ++ [VideoFailed i e] ->
    log_error env idea e
      (set_stdout (stdout st2 ++ [VideoFailed i e]) (add_failed st2)) =
      (Ok tt, st') ->
    settled env i idea st st'.




(** The verdict printed for the idea numbered [j]. *)
Definition verdict (j : nat) (l : line) : Prop :=
  l = VideoCompleted j \/ exists e, l = VideoFailed j e.

Definition is_completed (l : line) : bool :=
  match l with
  | VideoCompleted _ => true
  | _ => false
  end.

Definition is_failed (l : line) : bool :=
  match l with
  | VideoFailed _ _ => true
  | _ => false
  end.

(** How many of the lines [out] satisfy [p]. *)
Definition tally (p : line -> bool) (out : list line) : Z :=
  Z.of_nat (length (List.filter p out)).





(** A step that leaves the files and the console alone. *)
Definition untouched (st st' : State) : Prop :=
  files st' = files st /\ stdout st' = stdout st.

Definition keeps {A} (m : M A) : Prop :=
  forall st, untouched st (snd (m st)).

Definition strictly_increasing (l : list Z) : Prop :=
  forall i j a b, (i < j)%nat -> l !! i = Some a -> l !! j = Some b -> a < b.

(** * Vocabulary of the further properties *)

(** Every run of [m] relates the state before to the state after. *)
Definition preserves (R : relation State) {A} (m : M A) : Prop :=
  forall st, R st (snd (m st)).

(** The part [f] of the state is left as it was. *)
Definition unchanged_on {B} (f : State -> B) : relation State :=
  fun st st' => f st' = f st.

(** Rows are only ever added at the end of a worksheet. *)
Definition append_only : relation State :=
  fun st st' => forall name, rows_of name st `prefix_of` rows_of name st'.

(** The seconds slept in total. *)
Definition total_wait (ws : list Z) : Z := foldr Z.add 0 ws.

(** What the pipeline itself works with: everything but the spreadsheet,
    the count of its calls and the clock. *)
Definition pipeline_view (st : State) :=
  (claude_calls st, hf_calls st, youtube_calls st, slept st, files st,
   stdout st, stats st).

(** A logger that cannot disturb the pipeline: it never raises an
    [Exception] and leaves the pipeline's view of the state as it was. *)
Definition harmless (m : M unit) : Prop :=
  forall st,
    (forall e, fst (m st) <> Raise (Exception e)) /\
    pipeline_view (snd (m st)) = pipeline_view st.

(** The rows that [log_idea] and [log_video] append. *)
Definition idea_row (ts t d h a : string) (v : Z) (kws : list string)
    : list cell :=
  [CStr ts; CStr t; CStr d; CStr h; CStr a; CInt v;
   CStr (String.concat ", " kws); CStr "pending"].

Definition video_row (ts t youtube_url youtube_id : string) (v : Z)
    (kws : list string) : list cell :=
  [CStr ts; CStr t; CStr youtube_url; CStr youtube_id; CStr "published";
   CInt v; CStr (String.concat ", " kws)].

(** The rows that a worksheet gains all satisfy [P]. *)
Definition adds_only (name : string) (P : list cell -> Prop) : relation State :=
  fun st st' =>
    forall row, row ∈ rows_of name st' -> row ∈ rows_of name st \/ P row.

(** What a computation costs at most: requests to the prompt model, to
    the inference endpoint and to YouTube, and seconds of sleep. *)
Definition spends (a b c : nat) (w : Z) {A} (m : M A) : Prop :=
  forall st,
    (claude_calls st <= claude_calls (snd (m st)) <= claude_calls st + a)%nat /\
    (hf_calls st <= hf_calls (snd (m st)) <= hf_calls st + b)%nat /\
    (youtube_calls st <= youtube_calls (snd (m st)) <= youtube_calls st + c)%nat /\
    exists ws, slept (snd (m st)) = slept st ++ ws /\ 0 <= total_wait ws <= w.

(** The part of the state that [spends] measures. *)
Definition meter_view (st : State) :=
  (claude_calls st, hf_calls st, youtube_calls st, slept st).

(** The ideas counted in [total] that are counted neither in [successful]
    nor in [failed]. *)
Definition backlog (st : State) : Z :=
  total (stats st) - successful (stats st) - failed (stats st).

(** ** Stopping a run *)







(** Between [st] and [st'] lines were only added to the console, and none
    of them satisfies [banned]. *)
Definition prints_no (banned : line -> bool) : relation State :=
  fun st st' =>
    exists added,
      stdout st' = stdout st ++ added /\
      Forall (fun l => banned l = false) added.


(** * Sample runs *)

Definition st0 : State :=
  mkState 0 0 0 0 0 [] ∅ ∅ [] (mkStats 0 0 0).

Definition sample_idea (t : string) : Idea :=
  mkIdea (Some t) (Some "Small steps, every day") (Some "Stop scrolling")
         (Some "students") (Some 7) (Some ["daily habits"; "focus"]).

Definition three_ideas : list Idea :=
  [sample_idea "Rise early"; sample_idea "Read more"; sample_idea "Walk daily"].

(** An environment from the answers of the idea model, of the inference
    endpoint and of YouTube; the disk, the prompt model and the
    spreadsheet always answer. *)
Definition make_env (ideas : result (list Idea))
    (posts : nat -> result Response) (inserts : Body -> result string) : Env :=
  {| init_clients := Ok tt;
     messages_ideas := fun _ _ _ => ideas;
     messages_prompt := fun _ t _ _ _ => Ok ("Cinematic shot: " +:+ t);
     requests_post := fun n _ => posts n;
     disk_write := fun _ => Ok tt;
     disk_left := fun _ => None;
     now := fun n _ => pretty n;
     videos_insert := fun _ _ body => inserts body;
     gspread_call := fun _ => Ok tt |}.

(** The model never finishes loading. *)
Definition env_cold : Env :=
  make_env (Ok three_ideas) (fun _ => Ok (mkResponse 503 "loading"))
           (fun _ => Ok "yt").

(** Two cold-start answers, then the video. *)
Definition env_warm : Env :=
  make_env (Ok three_ideas)
           (fun n => if (n <? 2)%nat then Ok (mkResponse 503 "loading")
                     else Ok (mkResponse 200 "mp4"))
           (fun _ => Ok "yt").

(** Cold start, a server error, a timeout, cold start again. *)
Definition env_flaky : Env :=
  make_env (Ok three_ideas)
           (fun n => match n with
                     | 1%nat => Ok (mkResponse 500 "internal error")
                     | 2%nat => Raise (Exception "Read timed out")
                     | _ => Ok (mkResponse 503 "loading")
                     end)
           (fun _ => Ok "yt").

(** YouTube refuses the idea titled "Read more" and accepts the others. *)
Definition env_second_refused : Env :=
  make_env (Ok three_ideas) (fun _ => Ok (mkResponse 200 "mp4"))
           (fun body => if String.eqb (snippet_title body) "Read more"
                        then Raise (Exception "quotaExceeded")
                        else Ok "yt").

(** The idea model fails. *)
Definition env_no_ideas : Env :=
  make_env (Raise (Exception "overloaded"))
           (fun _ => Ok (mkResponse 200 "mp4")) (fun _ => Ok "yt").

(** The second request to the endpoint is interrupted. *)
Definition env_interrupted : Env :=
  make_env (Ok three_ideas)
           (fun n => match n with
                     | 1%nat => Raise KeyboardInterrupt
                     | _ => Ok (mkResponse 503 "loading")
                     end)
           (fun _ => Ok "yt").

(** The Sheets API fails once, on its third call. *)
Definition env_header_fails : Env :=
  {| init_clients := Ok tt;
     messages_ideas := fun _ _ _ => Ok three_ideas;
     messages_prompt := fun _ t _ _ _ => Ok ("Cinematic shot: " +:+ t);
     requests_post := fun _ _ => Ok (mkResponse 503 "loading");
     disk_write := fun _ => Ok tt;
     disk_left := fun _ => None;
     now := fun n _ => pretty n;
     videos_insert := fun _ _ _ => Ok "yt";
     gspread_call := fun n => match n with
                              | 2%nat => Raise (Exception "APIError 500")
                              | _ => Ok tt
                              end |}.

(** The clients cannot be built. *)
Definition env_init_fails : Env :=
  {| init_clients := Raise (Exception "sheets_creds.json not found");
     messages_ideas := fun _ _ _ => Ok three_ideas;
     messages_prompt := fun _ t _ _ _ => Ok ("Cinematic shot: " +:+ t);
     requests_post := fun _ _ => Ok (mkResponse 200 "mp4");
     disk_write := fun _ => Ok tt;
     disk_left := fun _ => None;
     now := fun n _ => pretty n;
     videos_insert := fun _ _ _ => Ok "yt";
     gspread_call := fun _ => Ok tt |}.

(** YouTube refuses every upload, and the ninth call to the Sheets API
    (the first call of the first [log_error]) is interrupted. *)
Definition env_log_interrupted : Env :=
  {| init_clients := Ok tt;
     messages_ideas := fun _ _ _ => Ok three_ideas;
     messages_prompt := fun _ t _ _ _ => Ok ("Cinematic shot: " +:+ t);
     requests_post := fun _ _ => Ok (mkResponse 200 "mp4");
     disk_write := fun _ => Ok tt;
     disk_left := fun _ => None;
     now := fun n _ => pretty n;
     videos_insert := fun _ _ _ => Raise (Exception "quotaExceeded");
     gspread_call := fun n => match n with
                              | 8%nat => Raise KeyboardInterrupt
                              | _ => Ok tt
                              end |}.

(** The idea model returns an empty batch. *)
Definition env_empty : Env :=
  make_env (Ok []) (fun _ => Ok (mkResponse 200 "mp4")) (fun _ => Ok "yt").

(** * The retry loop *)

Section Generate.

Variable env : Env.
Variable prompt : string.

Lemma attempt_retryable retry_count st :
  retryable (poll_outcome env (hf_calls st) prompt) ->
  exists st',
    attempt env prompt retry_count st = (Ok (Retry (retry_count + 1)), st') /\
    retried 1 [wait_after (poll_outcome env (hf_calls st) prompt) (retry_count + 1)]
            st st'.
Proof.
  unfold poll_outcome, attempt, try_except, bind, post, sleep, modify, ret,
    strftime, write_file, call.
  destruct (requests_post env (hf_calls st) prompt) as [response | [e|]];
    simpl; try contradiction.
  - destruct (status_code response =? 503); simpl.
    + intros _. eexists; split; [reflexivity|].
      split; simpl; auto; lia.
    + destruct (status_code response =? 200); simpl.
      * destruct (disk_write env (hf_calls st)) as [[] | [e|]];
          simpl; try contradiction.
        intros _. eexists; split; [reflexivity|].
        destruct (disk_left env (hf_calls st)); split; simpl; auto; lia.
      * intros _. eexists; split; [reflexivity|].
        split; simpl; auto; lia.
  - intros _. eexists; split; [reflexivity|].
    split; simpl; auto; lia.
Qed.

Lemma attempt_ready retry_count st artifact :
  poll_outcome env (hf_calls st) prompt = Ready artifact ->
  let video_path :=
    "video_" +:+ now env (clock_reads st) "%Y%m%d_%H%M%S" +:+ ".mp4" in
  attempt env prompt retry_count st =
    (Ok (Return video_path),
     set_files (<[video_path := artifact]> (files st))
       (set_clock_reads (S (clock_reads st))
          (set_hf_calls (S (hf_calls st)) st))).
Proof.
  unfold poll_outcome, attempt, try_except, bind, post, sleep, modify, ret,
    strftime, write_file, call.
  destruct (requests_post env (hf_calls st) prompt) as [response | [e|]];
    simpl; try discriminate.
  destruct (status_code response =? 503); simpl; try discriminate.
  destruct (status_code response =? 200); simpl; try discriminate.
  destruct (disk_write env (hf_calls st)) as [[] | [e|]]; simpl;
    try discriminate.
  intros [= <-]. reflexivity.
Qed.

Lemma attempt_interrupted retry_count st :
  requests_post env (hf_calls st) prompt = Raise KeyboardInterrupt ->
  attempt env prompt retry_count st =
    (Raise KeyboardInterrupt, set_hf_calls (S (hf_calls st)) st).
Proof.
  intros H. unfold attempt, try_except, bind, post, call. rewrite H.
  reflexivity.
Qed.

Lemma retried_refl st : retried 0 [] st st.
Proof. split; auto using app_nil_r. Qed.

Lemma retried_trans k1 k2 ws1 ws2 st1 st2 st3 :
  retried k1 ws1 st1 st2 -> retried k2 ws2 st2 st3 ->
  retried (k1 + k2) (ws1 ++ ws2) st1 st3.
Proof.
  intros [] []. split; try congruence.
  - lia.
  - rewrite app_assoc. congruence.
Qed.

(** [k] polls that ask for a retry take the loop from [retry_count] to
    [retry_count + k]. *)
Lemma generate_loop_retries max_retries k :
  forall fuel retry_count st,
    (forall j, (j < k)%nat ->
       retryable (poll_outcome env (hf_calls st + j) prompt)) ->
    retry_count + Z.of_nat k <= max_retries ->
    (k <= fuel)%nat ->
    exists st',
      generate_loop env fuel prompt max_retries retry_count st =
      generate_loop env (fuel - k) prompt max_retries
                    (retry_count + Z.of_nat k) st' /\
      retried k (waits env prompt (hf_calls st) retry_count k) st st'.
Proof.
  induction k as [|k IH]; intros fuel retry_count st Hpoll Hmax Hfuel.
  - exists st. rewrite Nat.sub_0_r, Z.add_0_r.
    split; [reflexivity | apply retried_refl].
  - destruct fuel as [|fuel]; [lia|].
    destruct (attempt_retryable retry_count st) as (st1 & Hatt & Hst1).
    { rewrite <- (Nat.add_0_r (hf_calls st)). apply Hpoll. lia. }
    destruct (IH fuel (retry_count + 1) st1) as (st' & Hloop & Hst'); try lia.
    { intros j Hj. rewrite (retried_hf _ _ _ _ Hst1).
      replace (hf_calls st + 1 + j)%nat with (hf_calls st + S j)%nat by lia.
      apply Hpoll. lia. }
    exists st'. split.
    + cbn [generate_loop].
      replace (retry_count <? max_retries) with true
        by (symmetry; apply Z.ltb_lt; lia).
      unfold bind at 1. rewrite Hatt. rewrite Hloop.
      replace (S fuel - S k)%nat with (fuel - k)%nat by lia.
      f_equal. lia.
    + cbn [waits].
      rewrite (retried_hf _ _ _ _ Hst1) in Hst'.
      replace (hf_calls st + 1)%nat with (S (hf_calls st)) in Hst' by lia.
      apply (retried_trans 1 k _ _ _ _ _ Hst1 Hst').
Qed.

(** When every poll asks for a retry, the pauses depend only on the kind
    of each answer. *)
Lemma waits_not_ready n :
  forall k retry_count,
    (forall j, (j < k)%nat -> poll_outcome env (n + j) prompt = NotReady) ->
    waits env prompt n retry_count k =
    map (fun j => RETRY_WAIT * (retry_count + Z.of_nat j)) (seq 1 k).
Proof.
  intros k. revert n.
  induction k as [|k IH]; intros n retry_count H; [reflexivity|].
  cbn [waits]. rewrite <- (Nat.add_0_r n) at 1. rewrite H by lia.
  rewrite IH.
  - cbn [seq map wait_after]. f_equal.
    rewrite <- (seq_shift k 1), map_map. apply map_ext. intros j. f_equal. lia.
  - intros j Hj. replace (S n + j)%nat with (n + S j)%nat by lia.
    apply H. lia.
Qed.

Lemma linear_waits_lookup k i w :
  linear_waits k !! i = Some w ->
  (i < k)%nat /\ w = RETRY_WAIT * (Z.of_nat i + 1).
Proof.
  unfold linear_waits. rewrite list_lookup_fmap.
  destruct (seq 1 k !! i) as [j|] eqn:Hj; [|discriminate].
  apply lookup_seq in Hj as [-> Hi]. intros [= <-].
  split; [exact Hi | f_equal; lia].
Qed.

Lemma linear_waits_increasing k : strictly_increasing (linear_waits k).
Proof.
  intros i j a b Hij Ha Hb.
  apply linear_waits_lookup in Ha as [_ ->].
  apply linear_waits_lookup in Hb as [_ ->].
  unfold RETRY_WAIT. lia.
Qed.

Lemma waits_lookup k :
  forall n retry_count j,
    (j < k)%nat ->
    waits env prompt n retry_count k !! j =
    Some (wait_after (poll_outcome env (n + j) prompt)
                     (retry_count + Z.of_nat j + 1)).
Proof.
  induction k as [|k IH]; intros n retry_count j Hj; [lia|].
  destruct j as [|j]; cbn [waits lookup list_lookup].
  - rewrite Nat.add_0_r, Z.add_0_r. reflexivity.
  - rewrite IH by lia. do 2 f_equal; [f_equal|]; lia.
Qed.

Lemma waits_length k :
  forall n retry_count, length (waits env prompt n retry_count k) = k.
Proof. induction k; intros; cbn [waits length]; auto. Qed.

Lemma attempt_retry_count retry_count retry_count' st st' :
  attempt env prompt retry_count st = (Ok (Retry retry_count'), st') ->
  retry_count' = retry_count + 1.
Proof.
  unfold attempt, try_except, bind, post, sleep, modify, ret, strftime,
    write_file, call.
  destruct (requests_post env (hf_calls st) prompt) as [response | [e|]];
    simpl; try congruence.
  destruct (status_code response =? 503); simpl; try congruence.
  destruct (status_code response =? 200); simpl; try congruence.
  destruct (disk_write env (hf_calls st)) as [[] | [e|]]; simpl; congruence.
Qed.

(** The loop never runs out of fuel: any amount above
    [max_retries - retry_count] gives the same run. *)
Lemma generate_loop_fuel max_retries fuel1 :
  forall fuel2 retry_count st,
    (Z.to_nat (max_retries - retry_count) <= fuel1)%nat ->
    (Z.to_nat (max_retries - retry_count) <= fuel2)%nat ->
    generate_loop env fuel1 prompt max_retries retry_count st =
    generate_loop env fuel2 prompt max_retries retry_count st.
Proof.
  induction fuel1 as [|fuel1 IH]; intros fuel2 retry_count st H1 H2;
    destruct fuel2 as [|fuel2]; cbn [generate_loop];
    destruct (retry_count <? max_retries) eqn:Hlt; try reflexivity;
    apply Z.ltb_lt in Hlt; try lia.
  unfold bind.
  destruct (attempt env prompt retry_count st) as [[[c|p]|e] st'] eqn:Hatt;
    try reflexivity.
  apply attempt_retry_count in Hatt as ->. apply IH; lia.
Qed.

(** All [n] polls of the budget ask for a retry: [generate] gives up. *)
Lemma generate_gives_up (n : nat) st :
  (forall j, (j < n)%nat ->
     retryable (poll_outcome env (hf_calls st + j) prompt)) ->
  exists st',
    generate env prompt (Z.of_nat n) st =
      (Ok None, set_stdout (stdout st' ++ [FailedAfter (Z.of_nat n)]) st') /\
    retried n (waits env prompt (hf_calls st) 0 n) st st'.
Proof.
  intros Hpoll. unfold generate. rewrite Nat2Z.id.
  destruct (generate_loop_retries (Z.of_nat n) n n 0 st) as (st' & Hloop & Hst');
    auto; try lia.
  exists st'. split; [|exact Hst'].
  rewrite Hloop, Nat.sub_diag. cbn [generate_loop].
  rewrite Z.add_0_l, Z.ltb_irrefl. reflexivity.
Qed.

(** Polls that find the model loading save nothing. *)
Lemma generate_loop_not_ready_files max_retries fuel :
  forall retry_count st,
    (forall j, Z.of_nat j < max_retries - retry_count ->
       poll_outcome env (hf_calls st + j) prompt = NotReady) ->
    files (snd (generate_loop env fuel prompt max_retries retry_count st)) =
    files st.
Proof.
  induction fuel as [|fuel IH]; intros retry_count st Hpoll;
    cbn [generate_loop]; destruct (retry_count <? max_retries) eqn:Hlt;
    try reflexivity.
  apply Z.ltb_lt in Hlt.
  assert (H0 : poll_outcome env (hf_calls st) prompt = NotReady).
  { rewrite <- (Nat.add_0_r (hf_calls st)). apply Hpoll. lia. }
  destruct (attempt_retryable retry_count st) as (st1 & Hatt & Hst1);
    [rewrite H0; exact I|].
  assert (Hfiles : files st1 = files st).
  { revert Hatt. clear - H0.
    unfold poll_outcome in H0.
    unfold attempt, try_except, bind, post, sleep, modify, ret, strftime,
      write_file, call.
    destruct (requests_post env (hf_calls st) prompt) as [response | [e|]];
      simpl in *; try discriminate.
    destruct (status_code response =? 503); simpl.
    - intros [= <-]. reflexivity.
    - destruct (status_code response =? 200); [|discriminate].
      destruct (disk_write env (hf_calls st)) as [[] | [e|]]; discriminate. }
  unfold bind. rewrite Hatt, IH, Hfiles; [reflexivity|].
  intros j Hj. rewrite (retried_hf _ _ _ _ Hst1).
  replace (hf_calls st + 1 + j)%nat with (hf_calls st + S j)%nat by lia.
  apply Hpoll. lia.
Qed.

End Generate.

(** * Claims about the retry loop *)

(** C3, as stated, fails: with a budget of five and an endpoint that answers
    503 to every request, [generate] makes five requests and returns [None],
    but it has slept five times, not four: after the fifth answer it still
    waits [20 * 5] seconds before the loop test ends the loop. *)
Lemma exhausted_budget_sleeps_after_last_poll :
  let r := generate env_cold "p" 5 st0 in
  fst r = Ok None /\
  hf_calls (snd r) = 5%nat /\
  slept (snd r) = linear_waits 4 ++ [100] /\
  slept (snd r) <> linear_waits 4.
Proof. vm_compute. repeat split; congruence. Qed.

(** C3 (amended): when every poll answers NotReady (HTTP 503), [generate]
    with a budget of [n] attempts (in particular five) makes exactly [n]
    requests, never one more, and returns [None]; it sleeps after every one
    of them, the last included: [base_wait * 1, ..., base_wait * n]. *)
Theorem generate_not_ready_exhausts env prompt (n : nat) st :
  (forall j, (j < n)%nat ->
     poll_outcome env (hf_calls st + j) prompt = NotReady) ->
  exists st',
    generate env prompt (Z.of_nat n) st = (Ok None, st') /\
    hf_calls st' = (hf_calls st + n)%nat /\
    slept st' = slept st ++ linear_waits n /\
    files st' = files st.
Proof.
  intros Hpoll.
  destruct (generate_gives_up env prompt n st) as (st' & Hgen & Hst').
  { intros j Hj. rewrite Hpoll by exact Hj. exact I. }
  eexists. split; [exact Hgen|].
  destruct Hst' as [Hhf Hslept _ _ _ _ _ _]. simpl.
  repeat split; auto.
  - rewrite Hslept, (waits_not_ready env prompt (hf_calls st) n 0 Hpoll).
    reflexivity.
  - pose proof (generate_loop_not_ready_files env prompt (Z.of_nat n)
                  (Z.to_nat (Z.of_nat n)) 0 st) as Hfiles.
    fold (generate env prompt (Z.of_nat n)) in Hfiles.
    rewrite Hgen in Hfiles. apply Hfiles.
    intros j Hj. apply Hpoll. lia.
Qed.

Lemma generate_not_ready_exhausts_witness :
  (forall j, (j < 5)%nat ->
     poll_outcome env_cold (hf_calls st0 + j) "p" = NotReady) /\
  exists st',
    generate env_cold "p" (Z.of_nat 5) st0 = (Ok None, st') /\
    hf_calls st' = (hf_calls st0 + 5)%nat /\
    slept st' = slept st0 ++ linear_waits 5 /\
    files st' = files st0.
Proof.
  split; [intros; reflexivity|].
  apply (generate_not_ready_exhausts env_cold "p" 5 st0).
  intros; reflexivity.
Defined.

(** C4: for every [k] below the budget, if the first [k] polls answer
    NotReady (HTTP 503) and the next one Ready (HTTP 200, content saved),
    [generate] returns the video file after exactly [k + 1] requests,
    having slept exactly [k] times, for [base_wait * 1, ..., base_wait * k]
    seconds, a strictly increasing sequence. *)
Theorem generate_ready_after_k env prompt max_retries (k : nat) st artifact :
  Z.of_nat k < max_retries ->
  (forall j, (j < k)%nat ->
     poll_outcome env (hf_calls st + j) prompt = NotReady) ->
  poll_outcome env (hf_calls st + k) prompt = Ready artifact ->
  exists st' video_path,
    generate env prompt max_retries st = (Ok (Some video_path), st') /\
    hf_calls st' = (hf_calls st + k + 1)%nat /\
    slept st' = slept st ++ linear_waits k /\
    length (linear_waits k) = k /\
    strictly_increasing (linear_waits k) /\
    files st' !! video_path = Some artifact.
Proof.
  intros Hk Hpoll Hready. unfold generate.
  destruct (generate_loop_retries env prompt max_retries k
              (Z.to_nat max_retries) 0 st) as (st1 & Hloop & Hst1);
    try lia.
  { intros j Hj. rewrite Hpoll by exact Hj. exact I. }
  destruct Hst1 as [Hhf Hslept _ _ _ _ _ _].
  rewrite <- Hhf in Hready.
  pose proof (attempt_ready env prompt (0 + Z.of_nat k) st1 artifact Hready)
    as Hatt.
  cbv zeta in Hatt.
  destruct (Z.to_nat max_retries - k)%nat as [|fuel] eqn:Hfuel; [lia|].
  do 2 eexists. split.
  - rewrite Hloop. cbn [generate_loop].
    replace (0 + Z.of_nat k <? max_retries) with true
      by (symmetry; apply Z.ltb_lt; lia).
    unfold bind at 1. rewrite Hatt. reflexivity.
  - simpl. repeat split.
    + lia.
    + rewrite Hslept, (waits_not_ready env prompt (hf_calls st) k 0 Hpoll).
      reflexivity.
    + unfold linear_waits. rewrite length_map, length_seq. reflexivity.
    + apply linear_waits_increasing.
    + apply lookup_insert_eq.
Qed.

Lemma generate_ready_after_k_witness :
  Z.of_nat 2 < 10 /\
  (forall j, (j < 2)%nat ->
     poll_outcome env_warm (hf_calls st0 + j) "p" = NotReady) /\
  poll_outcome env_warm (hf_calls st0 + 2) "p" = Ready "mp4" /\
  exists st' video_path,
    generate env_warm "p" 10 st0 = (Ok (Some video_path), st') /\
    hf_calls st' = (hf_calls st0 + 2 + 1)%nat /\
    slept st' = slept st0 ++ linear_waits 2 /\
    length (linear_waits 2) = 2%nat /\
    strictly_increasing (linear_waits 2) /\
    files st' !! video_path = Some "mp4".
Proof.
  assert (H : forall j, (j < 2)%nat ->
            poll_outcome env_warm (hf_calls st0 + j) "p" = NotReady).
  { intros [|[|j]] Hj; [reflexivity | reflexivity | lia]. }
  split; [lia|]. split; [exact H|]. split; [reflexivity|].
  apply (generate_ready_after_k env_warm "p" 10 2 st0 "mp4");
    [lia | exact H | reflexivity].
Defined.

(** C5: NotReady and Failed answers draw on one counter: a run whose [n]
    polls (the whole budget) all ask for a retry ends after exactly [n]
    requests.  After the poll numbered [j] (from 0) the counter stands at
    [j + 1] whatever the kinds of the earlier answers; a Failed answer (a
    status other than 503 and 200, or a raised exception such as a timeout)
    is followed by a pause of the fixed [base_wait], a NotReady answer by
    [base_wait * (j + 1)]. *)
Theorem failed_polls_wait_flat env prompt (n : nat) st :
  (forall j, (j < n)%nat ->
     retryable (poll_outcome env (hf_calls st + j) prompt)) ->
  exists st',
    generate env prompt (Z.of_nat n) st = (Ok None, st') /\
    hf_calls st' = (hf_calls st + n)%nat /\
    length (slept st') = (length (slept st) + n)%nat /\
    forall j, (j < n)%nat ->
      slept st' !! (length (slept st) + j)%nat =
      Some (match poll_outcome env (hf_calls st + j) prompt with
            | NotReady => RETRY_WAIT * (Z.of_nat j + 1)
            | _ => RETRY_WAIT
            end).
Proof.
  intros Hpoll.
  destruct (generate_gives_up env prompt n st Hpoll) as (st' & Hgen & Hst').
  eexists. split; [exact Hgen|].
  destruct Hst' as [Hhf Hslept _ _ _ _ _ _]. simpl.
  repeat split; auto.
  - rewrite Hslept, length_app, waits_length. reflexivity.
  - intros j Hj. rewrite Hslept, lookup_app_r by lia.
    replace (length (slept st) + j - length (slept st))%nat with j by lia.
    rewrite waits_lookup by exact Hj. unfold wait_after.
    rewrite Z.add_0_l. reflexivity.
Qed.

Lemma failed_polls_wait_flat_witness :
  (forall j, (j < 4)%nat ->
     retryable (poll_outcome env_flaky (hf_calls st0 + j) "p")) /\
  exists st',
    generate env_flaky "p" (Z.of_nat 4) st0 = (Ok None, st') /\
    hf_calls st' = (hf_calls st0 + 4)%nat /\
    length (slept st') = (length (slept st0) + 4)%nat /\
    forall j, (j < 4)%nat ->
      slept st' !! (length (slept st0) + j)%nat =
      Some (match poll_outcome env_flaky (hf_calls st0 + j) "p" with
            | NotReady => RETRY_WAIT * (Z.of_nat j + 1)
            | _ => RETRY_WAIT
            end).
Proof.
  assert (H : forall j, (j < 4)%nat ->
            retryable (poll_outcome env_flaky (hf_calls st0 + j) "p")).
  { intros [|[|[|[|j]]]] Hj; exact I. }
  split; [exact H|].
  apply (failed_polls_wait_flat env_flaky "p" 4 st0 H).
Defined.

(** * Steps that leave the score alone *)

Lemma scored_refl st : scored st st.
Proof. split; reflexivity. Qed.

Lemma scored_trans st1 st2 st3 :
  scored st1 st2 -> scored st2 st3 -> scored st1 st3.
Proof. intros [] []. split; congruence. Qed.

Lemma outcomes_app out1 out2 :
  outcomes (out1 ++ out2) = outcomes out1 ++ outcomes out2.
Proof. apply List.filter_app. Qed.

Lemma tame_ret {A} (a : A) : tame (ret a).
Proof. intros st. split; [apply scored_refl | discriminate]. Qed.

Lemma tame_raise {A} e : tame (@raise A (Exception e)).
Proof. intros st. split; [apply scored_refl | discriminate]. Qed.

Lemma tame_bind {A B} (m : M A) (k : A -> M B) :
  tame m -> (forall a, tame (k a)) -> tame (bind m k).
Proof.
  intros Hm Hk st. unfold bind.
  destruct (Hm st) as [Hs Hq]. destruct (m st) as [[a|e] st1]; simpl in *.
  - destruct (Hk a st1) as [Hs' Hq']. split; [|exact Hq'].
    eapply scored_trans; eassumption.
  - split; [assumption|]. destruct e; congruence.
Qed.

Lemma tame_try_except {A} (body : M A) handler :
  tame body -> (forall e, tame (handler e)) -> tame (try_except body handler).
Proof.
  intros Hm Hk st. unfold try_except.
  destruct (Hm st) as [Hs Hq]. destruct (body st) as [[a|[e|]] st1]; simpl in *.
  - split; [assumption | discriminate].
  - destruct (Hk e st1) as [Hs' Hq']. split; [|exact Hq'].
    eapply scored_trans; eassumption.
  - congruence.
Qed.

Lemma tame_getitem {A} k (v : option A) : tame (getitem k v).
Proof. destruct v; [apply tame_ret | apply tame_raise]. Qed.

Lemma tame_gets {A} (f : State -> A) : tame (gets f).
Proof. intros st. split; [apply scored_refl | discriminate]. Qed.

Lemma tame_modify f : (forall st, scored st (f st)) -> tame (modify f).
Proof. intros H st. split; [apply H | discriminate]. Qed.

Lemma tame_call {A} (answer : State -> result A) count :
  (forall st, answer st <> Raise KeyboardInterrupt) ->
  (forall st, scored st (count st)) ->
  tame (call answer count).
Proof. intros Ha Hc st. split; [apply Hc | apply Ha]. Qed.

Lemma tame_print l : is_outcome l = false -> tame (print l).
Proof.
  intros Hl. apply tame_modify. intros st. split; [reflexivity|].
  simpl. rewrite outcomes_app. simpl. rewrite Hl. apply app_nil_r.
Qed.

Lemma tame_sleep seconds : tame (sleep seconds).
Proof. apply tame_modify. intros st. split; reflexivity. Qed.

Lemma tame_of_result {A} (r : result A) :
  r <> Raise KeyboardInterrupt -> tame (of_result r).
Proof. intros H st. split; [apply scored_refl | exact H]. Qed.

Create HintDb tame.

#[local] Hint Resolve tame_ret tame_raise tame_getitem tame_gets tame_sleep
  tame_of_result scored_refl : tame.
#[local] Hint Extern 2 (tame (bind _ _)) => apply tame_bind; [|intros] : tame.
#[local] Hint Extern 2 (tame (try_except _ _)) =>
  apply tame_try_except; [|intros] : tame.
#[local] Hint Extern 2 (tame (print _)) =>
  apply tame_print; reflexivity : tame.
#[local] Hint Extern 2 (tame (modify _)) =>
  apply tame_modify; intros; split; reflexivity : tame.
#[local] Hint Extern 2 (tame (call _ _)) =>
  apply tame_call; intros; [|split; reflexivity] : tame.
#[local] Hint Extern 3 (tame (match ?x with _ => _ end)) => destruct x : tame.

Section Tame.

Variable env : Env.
Hypothesis quiet : no_interrupt env.

Lemma tame_strftime fmt : tame (strftime env fmt).
Proof. unfold strftime. auto with tame. Qed.

Lemma tame_post prompt : tame (post env prompt).
Proof. unfold post. auto using ni_post with tame. Qed.

Lemma tame_write_file video_path data : tame (write_file env video_path data).
Proof.
  intros st. unfold write_file.
  pose proof (ni_disk env quiet (Nat.pred (hf_calls st))) as H.
  destruct (disk_write env (Nat.pred (hf_calls st))) as [[]|e]; simpl.
  - split; [split; reflexivity | discriminate].
  - split; [|exact H].
    destruct (disk_left env (Nat.pred (hf_calls st)));
      [split; reflexivity | apply scored_refl].
Qed.

Lemma tame_api_call : tame (api_call env).
Proof. unfold api_call. auto using ni_gspread with tame. Qed.

#[local] Hint Resolve tame_strftime tame_post tame_write_file tame_api_call
  : tame.

Lemma tame_attempt prompt retry_count : tame (attempt env prompt retry_count).
Proof. unfold attempt. auto 20 with tame. Qed.

Lemma tame_generate_loop prompt max_retries fuel :
  forall retry_count,
    tame (generate_loop env fuel prompt max_retries retry_count).
Proof.
  induction fuel as [|fuel IH]; intros retry_count; cbn [generate_loop];
    destruct (retry_count <? max_retries); auto with tame.
  apply tame_bind; [apply tame_attempt|].
  intros [c|p]; auto with tame.
Qed.

Lemma tame_generate prompt max_retries : tame (generate env prompt max_retries).
Proof. apply tame_generate_loop. Qed.

Lemma tame_generate_video_prompt idea : tame (generate_video_prompt env idea).
Proof. unfold generate_video_prompt. auto 20 using ni_prompt with tame. Qed.

Lemma tame_generate_ideas n : tame (generate_ideas env n).
Proof. unfold generate_ideas. auto 20 using ni_ideas with tame. Qed.

Lemma tame_upload_body idea : tame (upload_body idea).
Proof. unfold upload_body. auto 20 with tame. Qed.

Lemma tame_upload video_path idea : tame (upload env video_path idea).
Proof.
  unfold upload. pose proof (tame_upload_body idea).
  auto 20 using ni_insert with tame.
Qed.

Lemma tame_append_row ws row : tame (append_row env ws row).
Proof. unfold append_row. auto 20 with tame. Qed.

Lemma tame_get_or_create_worksheet name headers :
  tame (_get_or_create_worksheet env name headers).
Proof.
  unfold _get_or_create_worksheet, worksheet, add_worksheet.
  pose proof tame_append_row. auto 20 with tame.
Qed.

#[local] Hint Resolve tame_get_or_create_worksheet tame_append_row : tame.

Lemma tame_log_idea idea : tame (log_idea env idea).
Proof. unfold log_idea. auto 30 with tame. Qed.

Lemma tame_log_video idea youtube_id youtube_url :
  tame (log_video env idea youtube_id youtube_url).
Proof. unfold log_video. auto 30 with tame. Qed.

Lemma tame_log_error idea error : tame (log_error env idea error).
Proof. unfold log_error. auto 30 with tame. Qed.

Lemma tame_cleanup video_path : tame (cleanup video_path).
Proof. unfold cleanup. auto 20 with tame. Qed.

End Tame.

(** * The second loop *)

Section Items.

Variable env : Env.
Hypothesis quiet : no_interrupt env.

(** Stepping over a tame computation. *)
Lemma bind_tame {A B} (m : M A) (k : A -> M B) st
    (P : result B * State -> Prop) :
  tame m ->
  (forall a st1, m st = (Ok a, st1) -> scored st st1 -> P (k a st1)) ->
  (forall e st1, m st = (Raise (Exception e), st1) -> scored st st1 ->
     P (Raise (Exception e), st1)) ->
  P (bind m k st).
Proof.
  intros Hm Hok Hraise. unfold bind. destruct (Hm st) as [Hs Hq].
  destruct (m st) as [[a|[e|]] st1]; simpl in *; auto. congruence.
Qed.

(** A [try] whose handler only warns always returns normally. *)
Lemma swallowed_ok (body : M unit) st :
  tame body ->
  exists st', try_except body (fun _ => ret tt) st = (Ok tt, st') /\
              scored st st'.
Proof.
  intros Hm. unfold try_except, ret. destruct (Hm st) as [Hs Hq].
  destruct (body st) as [[[]|[e|]] st1]; simpl in *; eauto. congruence.
Qed.

Lemma log_video_ok idea youtube_id youtube_url st :
  exists st', log_video env idea youtube_id youtube_url st = (Ok tt, st') /\
              scored st st'.
Proof.
  apply swallowed_ok.
  pose proof (tame_get_or_create_worksheet env quiet).
  pose proof (tame_append_row env quiet).
  pose proof (tame_strftime env).
  auto 30 with tame.
Qed.

Lemma log_error_ok idea error st :
  exists st', log_error env idea error st = (Ok tt, st') /\ scored st st'.
Proof.
  apply swallowed_ok.
  pose proof (tame_get_or_create_worksheet env quiet).
  pose proof (tame_append_row env quiet).
  pose proof (tame_strftime env).
  auto 30 with tame.
Qed.

Lemma log_idea_ok idea st :
  exists st', log_idea env idea st = (Ok tt, st') /\ scored st st'.
Proof.
  apply swallowed_ok.
  pose proof (tame_get_or_create_worksheet env quiet).
  pose proof (tame_append_row env quiet).
  pose proof (tame_strftime env).
  auto 30 with tame.
Qed.

Lemma cleanup_ok video_path st :
  exists st', cleanup video_path st = (Ok tt, st') /\ scored st st'.
Proof.
  unfold cleanup, bind, gets, modify, print.
  destruct (files st !! video_path); eexists; (split; [reflexivity|]).
  - split; [reflexivity|]. simpl. rewrite outcomes_app. apply app_nil_r.
  - apply scored_refl.
Qed.

Lemma attempt_no_exception prompt retry_count st e st' :
  attempt env prompt retry_count st <> (Raise (Exception e), st').
Proof.
  unfold attempt, try_except, bind, post, sleep, modify, ret, strftime,
    write_file, call.
  destruct (requests_post env (hf_calls st) prompt) as [response | [e'|]];
    simpl; try congruence.
  destruct (status_code response =? 503); simpl; try congruence.
  destruct (status_code response =? 200); simpl; try congruence.
  destruct (disk_write env (hf_calls st)) as [[] | [e'|]]; simpl; congruence.
Qed.

Lemma generate_loop_no_exception prompt max_retries fuel :
  forall retry_count st e st',
    generate_loop env fuel prompt max_retries retry_count st <>
    (Raise (Exception e), st').
Proof.
  induction fuel as [|fuel IH]; intros retry_count st e st';
    cbn [generate_loop]; destruct (retry_count <? max_retries);
    try discriminate.
  unfold bind.
  destruct (attempt env prompt retry_count st) as [[[c|p]|[e'|]] st1] eqn:Hatt;
    try discriminate.
  - apply IH.
  - intros [= -> ->]. exact (attempt_no_exception _ _ _ _ _ Hatt).
Qed.

(** The [try] block either runs its three stages and settles the idea as
    completed, or stops at the stage that failed, the score untouched. *)
Lemma try_block_cases i idea st :
  (exists video_path ids st3 st',
     stages_succeed env idea st video_path ids st3 /\
     try_block env i idea st = (Ok tt, st') /\
     stats st' = stats (add_successful st) /\
     outcomes (stdout st') = outcomes (stdout st) ++ [VideoCompleted i]) \/
  (exists e st2,
     stage_failure env idea st e st2 /\
     try_block env i idea st = (Raise (Exception e), st2) /\
     scored st st2).
Proof.
  unfold try_block, bind.
  destruct (tame_generate_video_prompt env quiet idea st) as [Hs1 Hq1].
  destruct (generate_video_prompt env idea st) as [[p|[e|]] st1] eqn:H1;
    simpl in Hs1, Hq1; [| |congruence].
  2:{ right. exists e, st1. auto using prompt_failed. }
  destruct (tame_generate env quiet p MAX_RETRIES st1) as [Hs2 Hq2].
  destruct (generate env p MAX_RETRIES st1) as [[[path|]|[e|]] st2] eqn:H2;
    simpl in Hs2, Hq2; [| | |congruence].
  3:{ exfalso. exact (generate_loop_no_exception _ _ _ _ _ _ _ H2). }
  2:{ right. exists "Video generation returned None", st2. split; [|split].
      - eapply generation_failed; eauto.
      - reflexivity.
      - eapply scored_trans; eassumption. }
  destruct (tame_upload env quiet path idea st2) as [Hs3 Hq3].
  destruct (upload env path idea st2) as [[[id url]|[e|]] st3] eqn:H3;
    simpl in Hs3, Hq3; [| |congruence].
  2:{ right. exists e, st3. split; [|split].
      - eapply publish_failed; eauto.
      - reflexivity.
      - eauto using scored_trans. }
  left.
  destruct (log_video_ok idea id url st3) as (st4 & H4 & Hs4).
  destruct (cleanup_ok path st4) as (st5 & H5 & Hs5).
  rewrite H4, H5. unfold modify, print.
  exists path, (id, url), st3. eexists. split; [|split; [reflexivity|]].
  - exists p, st1, st2. auto.
  - assert (Hs : scored st st5) by eauto using scored_trans.
    destruct Hs as [Hstats Hout]. simpl. rewrite Hstats. split; [reflexivity|].
    rewrite outcomes_app, Hout. reflexivity.
Qed.

(** Every idea that can be displayed is settled, whatever its stages do. *)
Lemma process_idea_settles i idea st :
  displayable idea ->
  exists st', process_idea env i idea st = (Ok tt, st') /\
              settled env i idea st st'.
Proof.
  intros ([t Ht] & [h Hh] & [a Ha] & [v Hv]).
  unfold process_idea. rewrite Ht, Hh, Ha, Hv.
  unfold bind at 1 2 3 4 5, modify, getitem, ret, try_except.
  destruct (try_block_cases i idea (add_total st))
    as [(path & ids & st3 & st' & Hstages & Hrun & Hstats & Hout)
       |(e & st2 & Hfail & Hrun & [Hstats Hout])]; rewrite Hrun.
  - exists st'. split; [reflexivity|].
    eapply settled_published; eauto.
  - unfold except_block, bind, modify, print.
    destruct (log_error_ok idea e
                (set_stdout (stdout st2 ++ [VideoFailed i e]) (add_failed st2)))
      as (st' & Hlog & [Hstats' Hout']).
    simpl in *. rewrite Hlog. exists st'. split; [reflexivity|].
    eapply settled_failed; eauto.
    + rewrite Hstats', Hstats. reflexivity.
    + rewrite Hout', outcomes_app, Hout. reflexivity.
Qed.

End Items.

Section Batch.

Variable env : Env.
Hypothesis quiet : no_interrupt env.

Lemma settled_score i idea st st' :
  settled env i idea st st' ->
  total (stats st') = total (stats st) + 1 /\
  successful (stats st') + failed (stats st') =
    successful (stats st) + failed (stats st) + 1 /\
  exists l, verdict i l /\ outcomes (stdout st') = outcomes (stdout st) ++ [l].
Proof.
  intros [path ids st3 _ Hstats Hout | e st2 _ Hstats Hout _];
    rewrite Hstats; simpl; (split; [reflexivity|]); (split; [lia|]).
  - exists (VideoCompleted i). split; [left; reflexivity | exact Hout].
  - exists (VideoFailed i e). split; [right; eauto | exact Hout].
Qed.

(** The loop reaches the end of the batch: one verdict per idea, in the
    order of the ideas, and [stats] moves by the size of the batch. *)
Lemma process_ideas_settles ideas :
  forall i st,
    Forall displayable ideas ->
    exists st' outs,
      process_ideas env i ideas st = (Ok tt, st') /\
      outcomes (stdout st') = outcomes (stdout st) ++ outs /\
      Forall2 verdict (seq i (length ideas)) outs /\
      total (stats st') = total (stats st) + Z.of_nat (length ideas) /\
      successful (stats st') + failed (stats st') =
        successful (stats st) + failed (stats st) + Z.of_nat (length ideas).
Proof.
  induction ideas as [|idea rest IH]; intros i st Hall.
  - exists st, []. cbn. rewrite app_nil_r.
    repeat split; try lia. constructor.
  - apply Forall_cons in Hall as [Hidea Hrest].
    destruct (process_idea_settles env quiet i idea st Hidea)
      as (st1 & Hrun1 & Hset).
    apply settled_score in Hset as (Htot & Hsum & l & Hl & Hout1).
    destruct (IH (S i) st1 Hrest) as (st' & outs & Hrun & Hout & Hv & Htot' & Hsum').
    exists st', (l :: outs). cbn [process_ideas length seq].
    unfold bind at 1. rewrite Hrun1, Hrun.
    repeat split.
    + rewrite Hout, Hout1, <- app_assoc. reflexivity.
    + constructor; assumption.
    + lia.
    + lia.
Qed.

Lemma tally_app p out1 out2 :
  tally p (out1 ++ out2) = tally p out1 + tally p out2.
Proof. unfold tally. rewrite List.filter_app, length_app. lia. Qed.

(** The statistics count the verdicts: [successful] the ideas printed as
    completed, [failed] the ideas printed as failed. *)
Lemma process_ideas_tally ideas :
  forall i st,
    Forall displayable ideas ->
    exists st' outs,
      process_ideas env i ideas st = (Ok tt, st') /\
      outcomes (stdout st') = outcomes (stdout st) ++ outs /\
      Forall2 verdict (seq i (length ideas)) outs /\
      total (stats st') = total (stats st) + Z.of_nat (length ideas) /\
      successful (stats st') = successful (stats st) + tally is_completed outs /\
      failed (stats st') = failed (stats st) + tally is_failed outs.
Proof.
  induction ideas as [|idea rest IH]; intros i st Hall.
  - exists st, []. cbn. rewrite app_nil_r.
    repeat split; try (unfold tally; simpl; lia). constructor.
  - apply Forall_cons in Hall as [Hidea Hrest].
    destruct (process_idea_settles env quiet i idea st Hidea)
      as (st1 & Hrun1 & Hset).
    destruct (IH (S i) st1 Hrest)
      as (st' & outs & Hrun & Hout & Hv & Htot & Hs & Hf).
    cbn [process_ideas length seq]. unfold bind at 1. rewrite Hrun1, Hrun.
    destruct Hset as [path ids st3 _ Hstats Hout1 | e st2 _ Hstats Hout1 _];
      rewrite Hstats in Htot, Hs, Hf; simpl in Htot, Hs, Hf.
    + exists st', (VideoCompleted i :: outs).
      split; [reflexivity|]. split.
      { rewrite Hout, Hout1, <- app_assoc. reflexivity. }
      split; [constructor; [left; reflexivity | exact Hv]|].
      change (VideoCompleted i :: outs) with ([VideoCompleted i] ++ outs).
      rewrite !tally_app. unfold tally at 1 3. simpl. repeat split; lia.
    + exists st', (VideoFailed i e :: outs).
      split; [reflexivity|]. split.
      { rewrite Hout, Hout1, <- app_assoc. reflexivity. }
      split; [constructor; [right; eauto | exact Hv]|].
      change (VideoFailed i e :: outs) with ([VideoFailed i e] ++ outs).
      rewrite !tally_app. unfold tally at 1 3. simpl. repeat split; lia.
Qed.

End Batch.

(** * Claims about the batch *)

(** C2: in a run that is not interrupted, after the loop over a batch of
    [N] ideas, [successful + failed = total = N]; each idea adds one to
    [total] and one to exactly one of [successful] and [failed]. *)
Theorem stats_balance env ideas st :
  no_interrupt env ->
  Forall displayable ideas ->
  stats st = mkStats 0 0 0 ->
  (exists st',
     process_ideas env 1 ideas st = (Ok tt, st') /\
     successful (stats st') + failed (stats st') = total (stats st') /\
     total (stats st') = Z.of_nat (length ideas)) /\
  (forall i idea st1,
     idea ∈ ideas ->
     exists st2,
       process_idea env i idea st1 = (Ok tt, st2) /\
       (stats st2 = mkStats (total (stats st1) + 1) (successful (stats st1) + 1)
                            (failed (stats st1)) \/
        stats st2 = mkStats (total (stats st1) + 1) (successful (stats st1))
                            (failed (stats st1) + 1))).
Proof.
  intros quiet Hall Hzero. split.
  - destruct (process_ideas_settles env quiet ideas 1 st Hall)
      as (st' & outs & Hrun & _ & _ & Htot & Hsum).
    rewrite Hzero in Htot, Hsum. simpl in Htot, Hsum.
    exists st'. split; [exact Hrun|]. lia.
  - intros i idea st1 Hin.
    rewrite Forall_forall in Hall.
    destruct (process_idea_settles env quiet i idea st1 (Hall idea Hin))
      as (st2 & Hrun & Hset).
    exists st2. split; [exact Hrun|].
    destruct Hset; auto.
Qed.

Lemma make_env_quiet ideas posts inserts :
  ideas <> Raise KeyboardInterrupt ->
  (forall n, posts n <> Raise KeyboardInterrupt) ->
  (forall body, inserts body <> Raise KeyboardInterrupt) ->
  no_interrupt (make_env ideas posts inserts).
Proof. intros Hi Hp Hb. split; simpl; intros; auto; discriminate. Qed.

Lemma env_second_refused_quiet : no_interrupt env_second_refused.
Proof.
  apply make_env_quiet; try discriminate.
  intros body. destruct (String.eqb _ _); discriminate.
Qed.

Lemma sample_idea_displayable t : displayable (sample_idea t).
Proof. repeat split; eexists; reflexivity. Qed.

Lemma stats_balance_witness :
  no_interrupt env_second_refused /\
  Forall displayable three_ideas /\
  stats st0 = mkStats 0 0 0 /\
  exists st',
    process_ideas env_second_refused 1 three_ideas st0 = (Ok tt, st') /\
    successful (stats st') + failed (stats st') = total (stats st') /\
    total (stats st') = Z.of_nat (length three_ideas).
Proof.
  assert (Hall : Forall displayable three_ideas)
    by (repeat constructor; apply sample_idea_displayable).
  split; [exact env_second_refused_quiet|].
  split; [exact Hall|]. split; [reflexivity|].
  apply (stats_balance env_second_refused three_ideas st0
           env_second_refused_quiet Hall eq_refl).
Defined.

(** Where the isolation ends: the title, hook, audience and score of an
    idea are printed before the [try] block, so an idea without one of
    these keys raises [KeyError] outside it.  The loop stops there: the
    idea is counted in [total] only and the ideas after it are not
    attempted. *)
Lemma missing_hook_stops_the_batch :
  let r := process_ideas env_warm 1
             [mkIdea (Some "No hook") (Some "d") None (Some "a") (Some 5)
                     (Some []);
              sample_idea "Never reached"] st0 in
  fst r = Raise (Exception "'hook'") /\
  stats (snd r) = mkStats 1 0 0 /\
  stdout (snd r) = [] /\
  hf_calls (snd r) = 0%nat.
Proof. vm_compute. repeat split. Qed.

(** * The records that are published and logged *)

Lemma str_take_length n :
  forall s, String.length (str_take n s) = Nat.min n (String.length s).
Proof. induction n as [|n IH]; intros [|a s]; simpl; auto. Qed.

Lemma str_take_prefix n : forall s, exists rest, s = str_take n s +:+ rest.
Proof.
  induction n as [|n IH]; intros s.
  - exists s. destruct s; reflexivity.
  - destruct s as [|a s]; [exists ""; reflexivity|].
    destruct (IH s) as [rest Hrest]. exists rest.
    change (String a s = String a (str_take n s +:+ rest)).
    f_equal. exact Hrest.
Qed.

(** Running the spreadsheet code on a state given field by field. *)
Ltac exec :=
  cbv beta iota zeta delta
    [log_error log_video log_idea try_except bind _get_or_create_worksheet
     worksheet add_worksheet append_row api_call call gets modify strftime
     ret raise getitem
     set_claude_calls set_hf_calls set_youtube_calls set_sheets_calls
     set_clock_reads set_slept set_files set_sheet set_stdout set_stats
     claude_calls hf_calls youtube_calls sheets_calls clock_reads slept files
     sheet stdout stats title description hook target_audience
     virality_score keywords fst snd rows_of].

Ltac oracle r := destruct r as [[] | [?e|]]; exec; auto.

(** Whatever the Sheets API answers, the only rows [log_error] can add to
    [Errors_Log] are the header row and its own record. *)
Lemma log_error_rows env idea error st row :
  row ∈ rows_of "Errors_Log" (snd (log_error env idea error st)) ->
  row ∈ rows_of "Errors_Log" st \/
  row = map CStr ["Timestamp"; "Title"; "Error"; "Stage"] \/
  exists ts, row = error_row ts idea error.
Proof.
  destruct st as [c h y s k sl f sh o stt]. exec.
  oracle (gspread_call env s).
  destruct (sh !! "Errors_Log") as [rows|] eqn:Hrows; exec.
  - oracle (gspread_call env (S s)); rewrite ?Hrows; auto.
    rewrite lookup_alter_eq, Hrows. simpl.
    rewrite elem_of_app, list_elem_of_singleton.
    intros [H | ->]; eauto.
  - oracle (gspread_call env (S s)); rewrite ?Hrows; auto.
    oracle (gspread_call env (S (S s))); rewrite ?lookup_insert_eq; auto.
    oracle (gspread_call env (S (S (S s))));
      rewrite ?lookup_alter_eq, ?lookup_insert_eq; simpl;
      rewrite ?elem_of_cons, ?elem_of_nil; intuition eauto.
Qed.

(** When the Sheets API answers, the record is appended (after the header
    row when the worksheet is new). *)
Lemma log_error_appends env idea error st :
  (forall n, gspread_call env n = Ok tt) ->
  fst (log_error env idea error st) = Ok tt /\
  rows_of "Errors_Log" (snd (log_error env idea error st)) =
    match sheet st !! "Errors_Log" with
    | Some rows => rows
    | None => [map CStr ["Timestamp"; "Title"; "Error"; "Stage"]]
    end ++ [error_row (now env (clock_reads st) "%Y-%m-%d %H:%M:%S") idea error].
Proof.
  intros Hok. destruct st as [c h y s k sl f sh o stt]. exec.
  rewrite !Hok.
  destruct (sh !! "Errors_Log") as [rows|] eqn:Hrows; exec; rewrite !Hok; exec.
  - rewrite lookup_alter_eq, Hrows. auto.
  - rewrite !lookup_alter_eq, lookup_insert_eq. auto.
Qed.

(** C10: every record that [log_error] appends to [Errors_Log] carries the
    fixed stage label ["video_generation"], whichever stage failed (the
    stage is not among its arguments), and its error text is the first 500
    characters of the message, hence at most 500 characters long.  The
    record is the only row it adds besides the header of a new worksheet,
    and it is added whenever the Sheets API answers. *)
Theorem log_error_record env idea error st :
  (forall ts, exists text,
     error_row ts idea error =
       [CStr ts; CStr (default "Unknown" (title idea)); CStr text;
        CStr "video_generation"] /\
     (String.length text <= 500)%nat /\
     String.length text = Nat.min 500 (String.length error) /\
     exists rest, error = text +:+ rest) /\
  (forall row,
     row ∈ rows_of "Errors_Log" (snd (log_error env idea error st)) ->
     row ∈ rows_of "Errors_Log" st \/
     row = map CStr ["Timestamp"; "Title"; "Error"; "Stage"] \/
     exists ts, row = error_row ts idea error) /\
  ((forall n, gspread_call env n = Ok tt) ->
   exists ts rows,
     rows_of "Errors_Log" (snd (log_error env idea error st)) =
     rows ++ [error_row ts idea error]).
Proof.
  split; [|split].
  - intros ts. exists (str_take 500 error). split; [reflexivity|].
    rewrite str_take_length. split; [lia|]. split; [reflexivity|].
    apply str_take_prefix.
  - intros row. apply log_error_rows.
  - intros Hok. destruct (log_error_appends env idea error st Hok) as [_ H].
    rewrite H. eauto.
Qed.

(** The body that [upload] sends does not depend on the keywords after
    the fifth. *)
Lemma upload_body_keywords idea kws kws' st :
  keywords idea = Some kws ->
  take 5 kws' = take 5 kws ->
  upload_body (mkIdea (title idea) (description idea) (hook idea)
                      (target_audience idea) (virality_score idea)
                      (Some kws')) st =
  upload_body idea st.
Proof.
  intros Hk Htake. unfold upload_body. simpl. rewrite Hk.
  destruct (title idea); [|reflexivity].
  unfold bind, getitem, ret. rewrite Htake. reflexivity.
Qed.

(** C9: [upload] publishes with the title cut to the first 100 characters
    of [idea['title']] (a longer title is cut, not rejected), with at most
    15 tags, and with hashtags and tags built from the first 5 keywords
    only. *)
Theorem upload_truncates env video_path idea st t d h kws :
  title idea = Some t -> description idea = Some d ->
  hook idea = Some h -> keywords idea = Some kws ->
  exists body,
    upload_body idea st = (Ok body, st) /\
    upload env video_path idea st =
      (match videos_insert env (youtube_calls st) video_path body with
       | Ok video_id => Ok (video_id, "https://youtube.com/watch?v=" +:+ video_id)
       | Raise e => Raise e
       end, set_youtube_calls (S (youtube_calls st)) st) /\
    snippet_title body = str_take 100 t /\
    String.length (snippet_title body) = Nat.min 100 (String.length t) /\
    (exists rest, t = snippet_title body +:+ rest) /\
    snippet_tags body = base_tags ++ map remove_spaces (take 5 kws) /\
    (length (snippet_tags body) <= 15)%nat /\
    (forall kws', take 5 kws' = take 5 kws ->
       upload_body (mkIdea (title idea) (description idea) (hook idea)
                           (target_audience idea) (virality_score idea)
                           (Some kws')) st = (Ok body, st)).
Proof.
  intros Ht Hd Hh Hk.
  assert (Hlen : (length (base_tags ++ map remove_spaces (take 5 kws)) <= 11)%nat).
  { rewrite length_app, length_map, length_take.
    change (length base_tags) with 6%nat. lia. }
  assert (Hbody : exists body,
            upload_body idea st = (Ok body, st) /\
            snippet_title body = str_take 100 t /\
            snippet_tags body = base_tags ++ map remove_spaces (take 5 kws)).
  { unfold upload_body. rewrite Ht, Hd, Hh, Hk.
    eexists. split; [reflexivity|].
    cbn [snippet_title snippet_tags]. split; [reflexivity|].
    apply take_ge. lia. }
  destruct Hbody as (body & Hrun & Htitle & Htags).
  exists body. split; [exact Hrun|]. split; [|split; [exact Htitle|]].
  - unfold upload, bind at 1. rewrite Hrun.
    unfold try_except, bind, call, ret, raise.
    destruct (videos_insert env (youtube_calls st) video_path body)
      as [video_id | [e|]]; reflexivity.
  - rewrite Htitle, Htags. split; [apply str_take_length|].
    split; [apply str_take_prefix|]. split; [reflexivity|].
    split; [lia|].
    intros kws' Htake. rewrite <- Hrun.
    apply (upload_body_keywords idea kws); assumption.
Qed.

Lemma upload_truncates_witness :
  exists body,
    upload_body (sample_idea "Rise early") st0 = (Ok body, st0) /\
    snippet_title body = "Rise early" /\
    snippet_tags body = base_tags ++ ["dailyhabits"; "focus"].
Proof.
  destruct (upload_truncates env_warm "video_0.mp4" (sample_idea "Rise early")
              st0 "Rise early" "Small steps, every day" "Stop scrolling"
              ["daily habits"; "focus"] eq_refl eq_refl eq_refl eq_refl)
    as (body & Hrun & _ & Htitle & _ & _ & Htags & _).
  exists body. split; [exact Hrun|]. split; [exact Htitle | exact Htags].
Defined.

Lemma log_error_record_witness :
  (forall n, gspread_call env_cold n = Ok tt) /\
  exists ts rows,
    rows_of "Errors_Log"
      (snd (log_error env_cold (sample_idea "Rise early")
              "Video generation returned None" st0)) =
    rows ++ [error_row ts (sample_idea "Rise early")
               "Video generation returned None"].
Proof.
  split; [reflexivity|].
  destruct (log_error_record env_cold (sample_idea "Rise early")
              "Video generation returned None" st0) as (_ & _ & H).
  apply H. reflexivity.
Defined.

(** * The whole run *)

Lemma summary_run st :
  summary st =
    (Ok tt,
     set_stdout
       (stdout st ++
        [Summary (successful (stats st)) (total (stats st)) (failed (stats st));
         if successful (stats st) >? 0 then PipelineCompleted
         else NoVideosPublished]) st).
Proof.
  unfold summary, bind, gets, print, modify.
  destruct (successful (stats st) >? 0); simpl; rewrite <- app_assoc;
    reflexivity.
Qed.

Lemma log_ideas_ok env ideas :
  no_interrupt env ->
  forall st,
    Forall displayable ideas ->
    exists st', log_ideas env ideas st = (Ok tt, st') /\ scored st st'.
Proof.
  intros quiet. induction ideas as [|idea rest IH]; intros st Hall.
  - exists st. split; [reflexivity | apply scored_refl].
  - apply Forall_cons in Hall as [([t Ht] & _) Hrest].
    destruct (log_idea_ok env quiet idea st) as (st1 & Hrun1 & Hs1).
    destruct (IH st1 Hrest) as (st' & Hrun & Hs).
    exists st'. cbn [log_ideas]. rewrite Ht.
    unfold bind, getitem, ret. rewrite Hrun1, Hrun.
    split; [reflexivity | eauto using scored_trans].
Qed.

(** C7, as stated, fails: when the idea model fails, [run_pipeline] prints
    "Pipeline failed" and raises the exception again; no summary of the
    statistics is printed. *)
Lemma idea_failure_ends_without_summary :
  let r := run_pipeline env_no_ideas st0 in
  fst r = Raise (Exception "overloaded") /\
  stdout (snd r) = [PipelineFailed "overloaded"] /\
  fst r <> Ok tt.
Proof. vm_compute. repeat split; congruence. Qed.

(** Every verdict is a success or a failure. *)
Lemma verdicts_tally ns outs :
  Forall2 verdict ns outs ->
  tally is_completed outs + tally is_failed outs = Z.of_nat (length ns).
Proof.
  induction 1 as [|j l js ls Hl _ IH]; [reflexivity|].
  change (l :: ls) with ([l] ++ ls). rewrite !tally_app, length_cons.
  destruct Hl as [-> | [e ->]]; unfold tally at 1 3; simpl; lia.
Qed.

(** C7 (amended): in a run that is not interrupted and whose clients
    initialise, (1) when the idea model returns a batch (of ideas that can
    be displayed), [run_pipeline] returns normally and its last two lines
    are the summary of the statistics and the closing line.  The
    statistics summarised are those of the run: [total] is the size of the
    batch, [successful] the number of ideas printed as completed, [failed]
    the number of ideas printed as failed, one verdict per idea, so that
    [successful + failed = total].  A run without any success returns
    normally as well and closes with "No videos were published"; a run
    with a success closes with "Pipeline completed".  (2) When the idea
    model raises, [run_pipeline] prints "Pipeline failed" and raises the
    same exception, without a summary. *)
Theorem run_pipeline_outcome env st :
  no_interrupt env ->
  init_clients env = Ok tt ->
  (forall ideas,
     (forall n k today, messages_ideas env n k today = Ok ideas) ->
     Forall displayable ideas ->
     exists st' before outs,
       run_pipeline env st = (Ok tt, st') /\
       stdout st' =
         before ++
         [Summary (successful (stats st')) (total (stats st'))
                  (failed (stats st'));
          if successful (stats st') >? 0 then PipelineCompleted
          else NoVideosPublished] /\
       outcomes before = outcomes (stdout st) ++ outs /\
       Forall2 verdict (seq 1 (length ideas)) outs /\
       total (stats st') = Z.of_nat (length ideas) /\
       successful (stats st') = tally is_completed outs /\
       failed (stats st') = tally is_failed outs /\
       successful (stats st') + failed (stats st') = total (stats st') /\
       (tally is_completed outs = 0 ->
        last (stdout st') = Some NoVideosPublished) /\
       (0 < tally is_completed outs ->
        last (stdout st') = Some PipelineCompleted)) /\
  (forall e,
     (forall n k today, messages_ideas env n k today = Raise (Exception e)) ->
     exists st',
       run_pipeline env st = (Raise (Exception e), st') /\
       stdout st' = stdout st ++ [PipelineFailed e]).
Proof.
  intros quiet Hinit. split.
  - intros ideas Hideas Hall.
    unfold run_pipeline, initialize, strftime, generate_ideas, strftime.
    unfold bind at 1 2 3 4, call, try_except at 1, bind at 1, of_result, ret.
    rewrite Hinit. cbn [fst snd]. unfold modify at 1.
    unfold try_except at 1, bind at 1 2, try_except at 1.
    rewrite Hideas. unfold bind at 1, print at 1, modify at 1.
    set (st1 := set_stdout _ _).
    destruct (log_ideas_ok env ideas quiet st1 Hall)
      as (st2 & Hrun2 & [Hstats2 Hout2]).
    destruct (process_ideas_tally env quiet ideas 1 st2 Hall)
      as (st3 & outs & Hrun3 & Hout3 & Hv & Htot & Hs & Hf).
    unfold bind. rewrite Hrun2, Hrun3, summary_run.
    rewrite Hstats2 in Htot, Hs, Hf. simpl in Htot, Hs, Hf.
    pose proof (verdicts_tally _ _ Hv) as Hsum.
    rewrite length_seq in Hsum.
    eexists. exists (stdout st3), outs.
    split; [reflexivity|]. cbn [stats stdout set_stdout].
    split; [reflexivity|]. split.
    { rewrite Hout3, Hout2. subst st1. simpl.
      rewrite outcomes_app, app_nil_r. reflexivity. }
    split; [exact Hv|]. split; [lia|]. split; [lia|]. split; [lia|].
    split; [lia|]. rewrite last_app. cbn [last]. split; intros H.
    + replace (successful (stats st3) >? 0) with false; [reflexivity|].
      symmetry. rewrite Z.gtb_ltb. apply Z.ltb_ge. lia.
    + replace (successful (stats st3) >? 0) with true; [reflexivity|].
      symmetry. rewrite Z.gtb_ltb. apply Z.ltb_lt. lia.
  - intros e Hideas.
    unfold run_pipeline, initialize, strftime, generate_ideas, strftime.
    unfold bind at 1 2 3 4, call, try_except at 1, bind at 1, of_result, ret.
    rewrite Hinit. cbn [fst snd]. unfold modify at 1.
    unfold try_except at 1, bind at 1 2, try_except at 1.
    rewrite Hideas. unfold raise, bind, print, modify.
    eexists. split; reflexivity.
Qed.

Lemma run_pipeline_outcome_witness :
  (exists st' before,
     run_pipeline env_second_refused st0 = (Ok tt, st') /\
     stats st' = mkStats 3 2 1 /\
     stdout st' = before ++ [Summary 2 3 1; PipelineCompleted]) /\
  (exists st' before,
     run_pipeline env_cold st0 = (Ok tt, st') /\
     stats st' = mkStats 3 0 3 /\
     stdout st' = before ++ [Summary 0 3 3; NoVideosPublished]).
Proof.
  assert (Hall : Forall displayable three_ideas)
    by (repeat constructor; apply sample_idea_displayable).
  split.
  - destruct (run_pipeline_outcome env_second_refused st0
                env_second_refused_quiet eq_refl) as [Hbatch _].
    destruct (Hbatch three_ideas (fun _ _ _ => eq_refl) Hall)
      as (st' & before & outs & Hrun & Hout & _).
    exists st', before. split; [exact Hrun|].
    assert (Hst' : st' = snd (run_pipeline env_second_refused st0))
      by (rewrite Hrun; reflexivity).
    assert (Hstats : stats st' = mkStats 3 2 1)
      by (rewrite Hst'; vm_compute; reflexivity).
    split; [exact Hstats|]. rewrite Hout, Hstats. reflexivity.
  - assert (Hquiet : no_interrupt env_cold)
      by (apply make_env_quiet; discriminate).
    destruct (run_pipeline_outcome env_cold st0 Hquiet eq_refl) as [Hbatch _].
    destruct (Hbatch three_ideas (fun _ _ _ => eq_refl) Hall)
      as (st' & before & outs & Hrun & Hout & _).
    exists st', before. split; [exact Hrun|].
    assert (Hst' : st' = snd (run_pipeline env_cold st0))
      by (rewrite Hrun; reflexivity).
    assert (Hstats : stats st' = mkStats 3 0 3)
      by (rewrite Hst'; vm_compute; reflexivity).
    split; [exact Hstats|]. rewrite Hout, Hstats. reflexivity.
Defined.

(** * An interrupted poll *)

Lemma generate_video_prompt_state env idea st r st' :
  generate_video_prompt env idea st = (r, st') ->
  st' = st \/ st' = set_claude_calls (S (claude_calls st)) st.
Proof.
  unfold generate_video_prompt, bind, getitem, ret, raise, try_except, call.
  destruct (title idea); [|intros [= _ <-]; auto].
  destruct (description idea); [|intros [= _ <-]; auto].
  destruct (hook idea); [|intros [= _ <-]; auto].
  destruct (target_audience idea); [|intros [= _ <-]; auto].
  destruct (messages_prompt env _ _ _ _ _) as [p|[e|]]; intros [= _ <-]; auto.
Qed.

(** An interrupt during a poll leaves [generate] at once. *)
Lemma generate_interrupted env prompt max_retries (k : nat) st :
  Z.of_nat k < max_retries ->
  (forall j, (j < k)%nat ->
     retryable (poll_outcome env (hf_calls st + j) prompt)) ->
  requests_post env (hf_calls st + k) prompt = Raise KeyboardInterrupt ->
  exists stk,
    retried k (waits env prompt (hf_calls st) 0 k) st stk /\
    generate env prompt max_retries st =
      (Raise KeyboardInterrupt, set_hf_calls (S (hf_calls stk)) stk).
Proof.
  intros Hk Hpoll Hint. unfold generate.
  destruct (generate_loop_retries env prompt max_retries k
              (Z.to_nat max_retries) 0 st) as (stk & Hloop & Hstk);
    auto; try lia.
  exists stk. split; [exact Hstk|].
  rewrite <- (retried_hf _ _ _ _ Hstk) in Hint.
  destruct (Z.to_nat max_retries - k)%nat as [|fuel] eqn:Hfuel; [lia|].
  rewrite Hloop. cbn [generate_loop].
  replace (0 + Z.of_nat k <? max_retries) with true
    by (symmetry; apply Z.ltb_lt; lia).
  unfold bind. rewrite (attempt_interrupted env prompt _ stk Hint).
  reflexivity.
Qed.

(** * The video file *)

Lemma untouched_trans st1 st2 st3 :
  untouched st1 st2 -> untouched st2 st3 -> untouched st1 st3.
Proof. intros [] []. split; congruence. Qed.

Lemma keeps_ret {A} (a : A) : keeps (ret a).
Proof. intros st. split; reflexivity. Qed.

Lemma keeps_raise {A} e : keeps (@raise A e).
Proof. intros st. split; reflexivity. Qed.

Lemma keeps_bind {A B} (m : M A) (k : A -> M B) :
  keeps m -> (forall a, keeps (k a)) -> keeps (bind m k).
Proof.
  intros Hm Hk st. unfold bind. specialize (Hm st).
  destruct (m st) as [[a|e] st1]; simpl in *; [|exact Hm].
  eapply untouched_trans; [exact Hm | apply Hk].
Qed.

Lemma keeps_try_except {A} (body : M A) handler :
  keeps body -> (forall e, keeps (handler e)) -> keeps (try_except body handler).
Proof.
  intros Hm Hk st. unfold try_except. specialize (Hm st).
  destruct (body st) as [[a|[e|]] st1]; simpl in *; try exact Hm.
  eapply untouched_trans; [exact Hm | apply Hk].
Qed.

Lemma keeps_getitem {A} k (v : option A) : keeps (getitem k v).
Proof. destruct v; [apply keeps_ret | apply keeps_raise]. Qed.

Lemma keeps_gets {A} (f : State -> A) : keeps (gets f).
Proof. intros st. split; reflexivity. Qed.

Create HintDb keeps.

#[local] Hint Resolve keeps_ret keeps_raise keeps_getitem keeps_gets : keeps.
#[local] Hint Extern 2 (keeps (bind _ _)) => apply keeps_bind; [|intros] : keeps.
#[local] Hint Extern 2 (keeps (try_except _ _)) =>
  apply keeps_try_except; [|intros] : keeps.
#[local] Hint Extern 2 (keeps (modify _)) =>
  intros ?; split; reflexivity : keeps.
#[local] Hint Extern 2 (keeps (call _ _)) =>
  intros ?; split; reflexivity : keeps.
#[local] Hint Extern 3 (keeps (match ?x with _ => _ end)) => destruct x : keeps.

Lemma keeps_get_or_create_worksheet env name headers :
  keeps (_get_or_create_worksheet env name headers).
Proof.
  unfold _get_or_create_worksheet, worksheet, add_worksheet, append_row,
    api_call.
  auto 30 with keeps.
Qed.

#[local] Hint Resolve keeps_get_or_create_worksheet : keeps.

Lemma log_video_files env idea youtube_id youtube_url :
  keeps (log_video env idea youtube_id youtube_url).
Proof.
  unfold log_video, append_row, api_call, strftime. auto 30 with keeps.
Qed.

Lemma log_error_files env idea error : keeps (log_error env idea error).
Proof.
  unfold log_error, append_row, api_call, strftime. auto 30 with keeps.
Qed.

Lemma upload_files env video_path idea : keeps (upload env video_path idea).
Proof. unfold upload, upload_body. auto 30 with keeps. Qed.

Lemma attempt_return env prompt retry_count st video_path st' :
  attempt env prompt retry_count st = (Ok (Return video_path), st') ->
  is_Some (files st' !! video_path).
Proof.
  unfold attempt, try_except, bind, post, sleep, modify, ret, strftime,
    write_file, call.
  destruct (requests_post env (hf_calls st) prompt) as [response | [e|]];
    simpl; try congruence.
  destruct (status_code response =? 503); simpl; try congruence.
  destruct (status_code response =? 200); simpl; try congruence.
  destruct (disk_write env (hf_calls st)) as [[] | [e|]]; simpl;
    try congruence.
  intros [= <- <-]. simpl. rewrite lookup_insert_eq. eauto.
Qed.

(** The path that [generate] returns is a file on disk. *)
Lemma generate_writes env prompt max_retries st video_path st' :
  generate env prompt max_retries st = (Ok (Some video_path), st') ->
  is_Some (files st' !! video_path).
Proof.
  unfold generate. generalize (Z.to_nat max_retries) 0.
  intros fuel. revert st.
  induction fuel as [|fuel IH]; intros st retry_count; cbn [generate_loop];
    destruct (retry_count <? max_retries);
    try (unfold bind, print, modify, ret; simpl; congruence).
  unfold bind.
  destruct (attempt env prompt retry_count st) as [[[c|p]|e] st1] eqn:Hatt;
    try discriminate.
  - apply IH.
  - intros [= <- <-]. exact (attempt_return _ _ _ _ _ _ Hatt).
Qed.

(** When publishing raises, the handler settles the idea as failed and the
    video that was generated stays on disk: nothing removes it. *)
Lemma publish_failure_leaves_video env i idea st video_prompt st1 video_path
    st2 e st3 :
  no_interrupt env ->
  displayable idea ->
  generate_video_prompt env idea (add_total st) = (Ok video_prompt, st1) ->
  generate env video_prompt MAX_RETRIES st1 = (Ok (Some video_path), st2) ->
  upload env video_path idea st2 = (Raise (Exception e), st3) ->
  exists st',
    process_idea env i idea st = (Ok tt, st') /\
    is_Some (files st' !! video_path) /\
    stdout st' = stdout st2 ++ [VideoFailed i e].
Proof.
  intros quiet ([t Ht] & [h Hh] & [a Ha] & [v Hv]) Hprompt Hgen Hup.
  pose proof (generate_writes _ _ _ _ _ _ Hgen) as Hfile.
  destruct (upload_files env video_path idea st2) as [Hf3 Ho3].
  rewrite Hup in Hf3, Ho3. simpl in Hf3, Ho3.
  set (st4 := set_stdout (stdout st3 ++ [VideoFailed i e]) (add_failed st3)).
  destruct (log_error_ok env quiet idea e st4) as (st' & Hlog & _).
  destruct (log_error_files env idea e st4) as [Hf Ho].
  rewrite Hlog in Hf, Ho. simpl in Hf, Ho.
  exists st'. split; [|split].
  - unfold process_idea. rewrite Ht, Hh, Ha, Hv.
    unfold bind at 1 2 3 4 5, modify, getitem, ret, try_except, try_block.
    unfold bind at 1. rewrite Hprompt. unfold bind at 1. rewrite Hgen.
    unfold bind at 1. rewrite Hup.
    unfold except_block, bind, print, modify. exact Hlog.
  - rewrite Hf, Hf3. exact Hfile.
  - rewrite Ho, <- Ho3. reflexivity.
Qed.

(** When publishing succeeds, the video is removed, once, before the idea
    is reported as completed. *)
Lemma published_video_is_removed env i idea st video_prompt st1 video_path
    st2 ids st3 :
  no_interrupt env ->
  displayable idea ->
  generate_video_prompt env idea (add_total st) = (Ok video_prompt, st1) ->
  generate env video_prompt MAX_RETRIES st1 = (Ok (Some video_path), st2) ->
  upload env video_path idea st2 = (Ok ids, st3) ->
  exists st',
    process_idea env i idea st = (Ok tt, st') /\
    files st' = delete video_path (files st2) /\
    stdout st' = stdout st2 ++ [CleanedUp video_path; VideoCompleted i].
Proof.
  intros quiet ([t Ht] & [h Hh] & [a Ha] & [v Hv]) Hprompt Hgen Hup.
  destruct (generate_writes _ _ _ _ _ _ Hgen) as [data Hfile].
  destruct (upload_files env video_path idea st2) as [Hf3 Ho3].
  rewrite Hup in Hf3, Ho3. simpl in Hf3, Ho3.
  destruct ids as [video_id video_url].
  destruct (log_video_ok env quiet idea video_id video_url st3)
    as (st4 & Hlog & _).
  destruct (log_video_files env idea video_id video_url st3) as [Hf4 Ho4].
  rewrite Hlog in Hf4, Ho4. simpl in Hf4, Ho4.
  eexists. split; [|split].
  - unfold process_idea. rewrite Ht, Hh, Ha, Hv.
    unfold bind at 1 2 3 4 5, modify, getitem, ret, try_except, try_block.
    unfold bind at 1. rewrite Hprompt. unfold bind at 1. rewrite Hgen.
    unfold bind at 1. rewrite Hup. unfold bind at 1. rewrite Hlog.
    unfold cleanup, bind, gets, modify, print.
    rewrite Hf4, Hf3, Hfile. reflexivity.
  - simpl. rewrite Hf4, Hf3. reflexivity.
  - simpl. rewrite Ho4, Ho3, <- app_assoc. reflexivity.
Qed.

(** C6 fails on the code: YouTube refuses the upload of the idea; the idea
    is settled as failed, and the video written by [generate] is still on
    disk, no "Cleaned up" line having been printed. *)
Theorem failed_item_keeps_its_video :
  let r := process_idea env_second_refused 1 (sample_idea "Read more") st0 in
  fst r = Ok tt /\
  stdout (snd r) = [VideoFailed 1 "quotaExceeded"] /\
  stats (snd r) = mkStats 1 0 1 /\
  files (snd r) !! "video_0.mp4" = Some "mp4".
Proof. vm_compute. repeat split. Qed.

(** * Further properties of the retry loop *)

Section GenerateAnyEnv.

Variable env : Env.
Variable prompt : string.

(** One iteration, whatever the endpoint and the disk answer: one request
    is made; a retry raises the counter by one and sleeps once, for
    [RETRY_WAIT] or [RETRY_WAIT] times the new counter; a return or an
    interrupt does not sleep. *)
Lemma attempt_step retry_count st :
  let r := attempt env prompt retry_count st in
  hf_calls (snd r) = S (hf_calls st) /\
  match fst r with
  | Ok (Retry retry_count') =>
      retry_count' = retry_count + 1 /\
      exists w, slept (snd r) = slept st ++ [w] /\
                (w = RETRY_WAIT \/ w = RETRY_WAIT * (retry_count + 1))
  | Ok (Return video_path) =>
      slept (snd r) = slept st /\
      exists response ts,
        requests_post env (hf_calls st) prompt = Ok response /\
        status_code response = 200 /\
        video_path = "video_" +:+ ts +:+ ".mp4" /\
        files (snd r) !! video_path = Some (content response)
  | Raise KeyboardInterrupt => slept (snd r) = slept st
  | Raise (Exception _) => False
  end.
Proof.
  unfold attempt, try_except, bind, post, sleep, modify, ret, strftime,
    write_file, call.
  destruct (requests_post env (hf_calls st) prompt) as [response | [e|]];
    simpl; eauto 10.
  destruct (status_code response =? 503) eqn:H503; simpl; eauto 10.
  destruct (status_code response =? 200) eqn:H200; simpl; eauto 10.
  apply Z.eqb_eq in H200.
  destruct (disk_write env (hf_calls st)) as [[] | [e|]]; simpl.
  - split; [reflexivity|]. split; [reflexivity|].
    do 2 eexists. split; [reflexivity|]. split; [exact H200|].
    split; [reflexivity|]. apply lookup_insert_eq.
  - destruct (disk_left env (hf_calls st)); simpl; eauto 10.
  - destruct (disk_left env (hf_calls st)); simpl; eauto 10.
Qed.

(** The requests and the pauses of the loop from [retry_count] on. *)
Lemma generate_loop_budget max_retries fuel :
  forall retry_count st,
    0 <= retry_count ->
    let r := generate_loop env fuel prompt max_retries retry_count st in
    (hf_calls st <= hf_calls (snd r) <=
       hf_calls st + Z.to_nat (max_retries - retry_count))%nat /\
    exists ws,
      slept (snd r) = slept st ++ ws /\
      (length ws <= hf_calls (snd r) - hf_calls st)%nat /\
      Forall (fun w => RETRY_WAIT <= w) ws /\
      2 * total_wait ws + RETRY_WAIT * retry_count * (retry_count + 1) <=
        RETRY_WAIT * Z.max retry_count max_retries *
        (Z.max retry_count max_retries + 1).
Proof.
  assert (Hnil : forall retry_count st,
            0 <= retry_count ->
            (hf_calls st <= hf_calls st <=
               hf_calls st + Z.to_nat (max_retries - retry_count))%nat /\
            exists ws,
              slept st = slept st ++ ws /\
              (length ws <= hf_calls st - hf_calls st)%nat /\
              Forall (fun w => RETRY_WAIT <= w) ws /\
              2 * total_wait ws + RETRY_WAIT * retry_count * (retry_count + 1) <=
                RETRY_WAIT * Z.max retry_count max_retries *
                (Z.max retry_count max_retries + 1)).
  { intros c st Hc. split; [lia|]. exists []. rewrite app_nil_r.
    repeat split; auto; simpl; [lia|]. unfold RETRY_WAIT. nia. }
  induction fuel as [|fuel IH]; intros c st Hc; cbn [generate_loop];
    destruct (c <? max_retries) eqn:Hlt;
    try (unfold bind, print, modify, ret; simpl; apply Hnil; exact Hc).
  apply Z.ltb_lt in Hlt. unfold bind.
  pose proof (attempt_step c st) as Hstep. cbv zeta in Hstep.
  destruct (attempt env prompt c st) as [[[c'|path]|[e|]] st1];
    simpl in Hstep; destruct Hstep as [Hhf Hstep].
  - destruct Hstep as (-> & w & Hslept & Hw).
    destruct (IH (c + 1) st1 ltac:(lia)) as (Hreq & ws & Hws & Hlen & Hall & Hsum).
    cbv zeta. split; [lia|]. exists (w :: ws).
    rewrite Hws, Hslept, <- app_assoc. split; [reflexivity|].
    split; [simpl; lia|]. split.
    + constructor; [|exact Hall]. unfold RETRY_WAIT in *. lia.
    + simpl. unfold RETRY_WAIT in *. nia.
  - simpl. destruct Hstep as [Hslept _]. split; [lia|].
    exists []. rewrite app_nil_r. repeat split; auto; [simpl; lia|].
    simpl. unfold RETRY_WAIT. nia.
  - contradiction.
  - simpl. split; [lia|].
    exists []. rewrite app_nil_r. repeat split; auto; [simpl; lia|].
    simpl. unfold RETRY_WAIT. nia.
Qed.

(** The loop ends with [None] only when the counter has reached the
    budget. *)
Lemma generate_loop_none max_retries fuel :
  forall retry_count st st',
    (Z.to_nat (max_retries - retry_count) <= fuel)%nat ->
    generate_loop env fuel prompt max_retries retry_count st = (Ok None, st') ->
    hf_calls st' = (hf_calls st + Z.to_nat (max_retries - retry_count))%nat /\
    exists before, stdout st' = before ++ [FailedAfter max_retries].
Proof.
  induction fuel as [|fuel IH]; intros c st st' Hfuel; cbn [generate_loop];
    destruct (c <? max_retries) eqn:Hlt;
    try (apply Z.ltb_lt in Hlt; lia);
    try (apply Z.ltb_ge in Hlt; unfold bind, print, modify, ret;
         intros [= <-]; simpl; split; [lia | eauto]).
  apply Z.ltb_lt in Hlt. unfold bind.
  pose proof (attempt_step c st) as Hstep. cbv zeta in Hstep.
  destruct (attempt env prompt c st) as [[[c'|path]|[e|]] st1];
    simpl in Hstep; destruct Hstep as [Hhf Hstep]; try discriminate.
  destruct Hstep as (-> & _). intros Hrun.
  apply IH in Hrun as [Hrun Hout]; [|lia]. split; [lia | exact Hout].
Qed.

(** The path that the loop returns holds the content of its last
    request, which was answered with status 200. *)
Lemma generate_loop_some max_retries fuel :
  forall retry_count st video_path st',
    generate_loop env fuel prompt max_retries retry_count st =
      (Ok (Some video_path), st') ->
    exists response ts,
      requests_post env (Nat.pred (hf_calls st')) prompt = Ok response /\
      status_code response = 200 /\
      video_path = "video_" +:+ ts +:+ ".mp4" /\
      files st' !! video_path = Some (content response).
Proof.
  induction fuel as [|fuel IH]; intros c st path st'; cbn [generate_loop];
    destruct (c <? max_retries);
    try (unfold bind, print, modify, ret; simpl; congruence).
  unfold bind.
  pose proof (attempt_step c st) as Hstep. cbv zeta in Hstep.
  destruct (attempt env prompt c st) as [[[c'|p]|[e|]] st1];
    simpl in Hstep; destruct Hstep as [Hhf Hstep]; try discriminate.
  - apply IH.
  - intros [= <- <-]. rewrite Hhf. simpl.
    destruct Hstep as (_ & response & ts & H). eauto.
Qed.

End GenerateAnyEnv.

(** X1: [generate] never raises an [Exception], whatever the endpoint and
    the disk do: every error of a request is caught and retried, and the
    loop ends with a path or with [None]. *)
Theorem generate_never_raises env prompt max_retries st e :
  fst (generate env prompt max_retries st) <> Raise (Exception e).
Proof.
  destruct (generate env prompt max_retries st) as [r st'] eqn:Hrun.
  simpl. intros ->.
  exact (generate_loop_no_exception _ _ _ _ _ _ _ _ Hrun).
Qed.

(** X2: [generate] makes at most [max_retries] requests (none when
    [max_retries] is zero or negative), and it returns [None] only after
    exactly that many, having printed "Failed after ... retries". *)
Theorem generate_request_budget env prompt max_retries st :
  let r := generate env prompt max_retries st in
  (hf_calls st <= hf_calls (snd r) <= hf_calls st + Z.to_nat max_retries)%nat /\
  (fst r = Ok None ->
   hf_calls (snd r) = (hf_calls st + Z.to_nat max_retries)%nat /\
   exists before, stdout (snd r) = before ++ [FailedAfter max_retries]).
Proof.
  cbv zeta. unfold generate. split.
  - destruct (generate_loop_budget env prompt max_retries
                (Z.to_nat max_retries) 0 st ltac:(lia)) as [H _].
    rewrite Z.sub_0_r in H. exact H.
  - destruct (generate_loop env (Z.to_nat max_retries) prompt max_retries 0 st)
      as [r st'] eqn:Hrun.
    simpl. intros ->.
    apply generate_loop_none in Hrun; [|lia].
    rewrite Z.sub_0_r in Hrun. exact Hrun.
Qed.

Lemma generate_request_budget_witness :
  fst (generate env_cold "p" 3 st0) = Ok None /\
  hf_calls (snd (generate env_cold "p" 3 st0)) = 3%nat.
Proof.
  split; [reflexivity|].
  destruct (generate_request_budget env_cold "p" 3 st0) as [_ H].
  destruct (H eq_refl) as [Hn _]. exact Hn.
Defined.

(** X3: the pauses of one call of [generate]: at most one per request,
    each of at least [RETRY_WAIT] seconds, and in total at most
    [RETRY_WAIT * n * (n + 1) / 2] seconds for a budget of [n] (1100
    seconds for the default budget of 10). *)
Theorem generate_sleep_bound env prompt max_retries st :
  exists ws,
    slept (snd (generate env prompt max_retries st)) = slept st ++ ws /\
    (length ws <= Z.to_nat max_retries)%nat /\
    Forall (fun w => RETRY_WAIT <= w) ws /\
    2 * total_wait ws <=
      RETRY_WAIT * Z.max 0 max_retries * (Z.max 0 max_retries + 1) /\
    (max_retries = MAX_RETRIES -> total_wait ws <= 1100).
Proof.
  unfold generate.
  destruct (generate_loop_budget env prompt max_retries
              (Z.to_nat max_retries) 0 st ltac:(lia))
    as (Hreq & ws & Hws & Hlen & Hall & Hsum).
  rewrite Z.sub_0_r in Hreq. exists ws.
  split; [exact Hws|]. split; [lia|]. split; [exact Hall|].
  split; [lia|].
  intros ->. unfold MAX_RETRIES, RETRY_WAIT in *. lia.
Qed.

Lemma generate_sleep_bound_witness :
  exists ws,
    slept (snd (generate env_cold "p" MAX_RETRIES st0)) = slept st0 ++ ws /\
    total_wait ws <= 1100.
Proof.
  destruct (generate_sleep_bound env_cold "p" MAX_RETRIES st0)
    as (ws & Hws & _ & _ & _ & H).
  exists ws. split; [exact Hws | exact (H eq_refl)].
Defined.

(** X4: when [generate] returns a path, the path is
    ["video_<timestamp>.mp4"], its last request was answered with status
    200, and the file holds the content of that answer. *)
Theorem generate_returns_saved_response env prompt max_retries st video_path st' :
  generate env prompt max_retries st = (Ok (Some video_path), st') ->
  exists response ts,
    requests_post env (Nat.pred (hf_calls st')) prompt = Ok response /\
    status_code response = 200 /\
    video_path = "video_" +:+ ts +:+ ".mp4" /\
    files st' !! video_path = Some (content response).
Proof. apply generate_loop_some. Qed.

Lemma generate_returns_saved_response_witness :
  exists response ts,
    requests_post env_warm 2 "p" = Ok response /\
    status_code response = 200 /\
    "video_0.mp4" = "video_" +:+ ts +:+ ".mp4" /\
    files (snd (generate env_warm "p" 10 st0)) !! "video_0.mp4" =
      Some (content response).
Proof.
  apply (generate_returns_saved_response env_warm "p" 10 st0 "video_0.mp4"
           (snd (generate env_warm "p" 10 st0))).
  reflexivity.
Defined.

(** * What a computation leaves alone *)

#[local] Instance unchanged_on_preorder {B} (f : State -> B) :
  PreOrder (unchanged_on f).
Proof.
  split; [intros st; reflexivity|].
  intros st1 st2 st3 H12 H23. unfold unchanged_on in *. congruence.
Qed.

#[local] Instance append_only_preorder : PreOrder append_only.
Proof.
  split; [intros st name; reflexivity|].
  intros st1 st2 st3 H12 H23 name. etransitivity; [apply H12 | apply H23].
Qed.

Lemma preserves_weaken (R1 R2 : relation State) {A} (m : M A) :
  (forall st st', R1 st st' -> R2 st st') -> preserves R1 m -> preserves R2 m.
Proof. intros Hsub Hm st. apply Hsub, Hm. Qed.

Section Preserves.

Context (R : relation State) `{!PreOrder R}.

Lemma preserves_ret {A} (a : A) : preserves R (ret a).
Proof. intros st. reflexivity. Qed.

Lemma preserves_raise {A} e : preserves R (@raise A e).
Proof. intros st. reflexivity. Qed.

Lemma preserves_of_result {A} (r : result A) : preserves R (of_result r).
Proof. intros st. reflexivity. Qed.

Lemma preserves_gets {A} (f : State -> A) : preserves R (gets f).
Proof. intros st. reflexivity. Qed.

Lemma preserves_getitem {A} k (v : option A) : preserves R (getitem k v).
Proof. destruct v; [apply preserves_ret | apply preserves_raise]. Qed.

Lemma preserves_modify f : (forall st, R st (f st)) -> preserves R (modify f).
Proof. intros H st. apply H. Qed.

Lemma preserves_call {A} (answer : State -> result A) count :
  (forall st, R st (count st)) -> preserves R (call answer count).
Proof. intros H st. apply H. Qed.

Lemma preserves_bind {A B} (m : M A) (k : A -> M B) :
  preserves R m -> (forall a, preserves R (k a)) -> preserves R (bind m k).
Proof.
  intros Hm Hk st. unfold bind. specialize (Hm st).
  destruct (m st) as [[a|e] st1]; simpl in *; [|exact Hm].
  etransitivity; [exact Hm | apply Hk].
Qed.

Lemma preserves_try_except {A} (body : M A) handler :
  preserves R body -> (forall e, preserves R (handler e)) ->
  preserves R (try_except body handler).
Proof.
  intros Hm Hk st. unfold try_except. specialize (Hm st).
  destruct (body st) as [[a|[e|]] st1]; simpl in *; try exact Hm.
  etransitivity; [exact Hm | apply Hk].
Qed.

End Preserves.

(** Taking a computation apart down to its calls and state updates. *)
Ltac frame :=
  repeat match goal with
    | |- preserves ?R (ret _) => apply (preserves_ret R)
    | |- preserves ?R (raise _) => apply (preserves_raise R)
    | |- preserves ?R (of_result _) => apply (preserves_of_result R)
    | |- preserves ?R (gets _) => apply (preserves_gets R)
    | |- preserves ?R (getitem _ _) => apply (preserves_getitem R)
    | |- preserves ?R (bind _ _) =>
        refine (preserves_bind R _ _ _ _); [|intros]
    | |- preserves ?R (try_except _ _) =>
        refine (preserves_try_except R _ _ _ _); [|intros]
    | |- preserves ?R (modify _) => refine (preserves_modify R _ _); intros
    | |- preserves ?R (call _ _) => refine (preserves_call R _ _ _); intros
    | |- preserves _ (match ?x with _ => _ end) => destruct x
    end.

Section Footprint.

Context (R : relation State) `{!PreOrder R}.
Variable env : Env.

(** The stages of an idea write the counters of their services, the
    clock, the pauses, the files and the console. *)
Section Stages.

Hypothesis R_claude : forall n st, R st (set_claude_calls n st).
Hypothesis R_hf : forall n st, R st (set_hf_calls n st).
Hypothesis R_youtube : forall n st, R st (set_youtube_calls n st).
Hypothesis R_clock : forall n st, R st (set_clock_reads n st).
Hypothesis R_slept : forall l st, R st (set_slept l st).
Hypothesis R_files : forall f st, R st (set_files f st).
Hypothesis R_stdout : forall o st, R st (set_stdout o st).

Lemma preserves_write_file video_path data :
  preserves R (write_file env video_path data).
Proof.
  intros st. unfold write_file.
  destruct (disk_write env (Nat.pred (hf_calls st))); simpl;
    [apply R_files|].
  destruct (disk_left env (Nat.pred (hf_calls st)));
    [apply R_files | reflexivity].
Qed.

Lemma preserves_attempt prompt retry_count :
  preserves R (attempt env prompt retry_count).
Proof.
  unfold attempt, post, sleep, strftime. frame;
    auto using preserves_write_file.
Qed.

Lemma preserves_generate prompt max_retries :
  preserves R (generate env prompt max_retries).
Proof.
  unfold generate. generalize (Z.to_nat max_retries) 0.
  intros fuel. induction fuel as [|fuel IH]; intros retry_count;
    cbn [generate_loop]; destruct (retry_count <? max_retries);
    unfold print; frame; auto using preserves_attempt.
Qed.

Lemma preserves_generate_video_prompt idea :
  preserves R (generate_video_prompt env idea).
Proof. unfold generate_video_prompt. frame; auto. Qed.

Lemma preserves_generate_ideas num_ideas :
  preserves R (generate_ideas env num_ideas).
Proof. unfold generate_ideas, strftime. frame; auto. Qed.

Lemma preserves_upload video_path idea :
  preserves R (upload env video_path idea).
Proof. unfold upload, upload_body. frame; auto. Qed.

Lemma preserves_cleanup video_path : preserves R (cleanup video_path).
Proof. unfold cleanup, print. frame; auto. Qed.

Lemma preserves_summary : preserves R summary.
Proof. unfold summary, print. frame; auto. Qed.

Lemma preserves_initialize : preserves R (initialize env).
Proof. unfold initialize, print. frame; auto. Qed.

End Stages.

(** The loggers write the spreadsheet, the count of its calls and the
    clock. *)
Section Ledger.

Hypothesis R_sheets : forall n st, R st (set_sheets_calls n st).
Hypothesis R_clock : forall n st, R st (set_clock_reads n st).
Hypothesis R_sheet : forall s st, R st (set_sheet s st).

Lemma preserves_get_or_create_worksheet name headers :
  preserves R (_get_or_create_worksheet env name headers).
Proof.
  unfold _get_or_create_worksheet, worksheet, add_worksheet, append_row,
    api_call.
  frame; auto.
Qed.

Lemma preserves_log_idea idea : preserves R (log_idea env idea).
Proof.
  unfold log_idea, append_row, api_call, strftime.
  frame; auto using preserves_get_or_create_worksheet.
Qed.

Lemma preserves_log_video idea youtube_id youtube_url :
  preserves R (log_video env idea youtube_id youtube_url).
Proof.
  unfold log_video, append_row, api_call, strftime.
  frame; auto using preserves_get_or_create_worksheet.
Qed.

Lemma preserves_log_error idea error :
  preserves R (log_error env idea error).
Proof.
  unfold log_error, append_row, api_call, strftime.
  frame; auto using preserves_get_or_create_worksheet.
Qed.

End Ledger.

(** The loop over the ideas adds [stats] and its own lines to what the
    stages and the loggers write. *)
Section Loop.

Hypothesis R_claude : forall n st, R st (set_claude_calls n st).
Hypothesis R_hf : forall n st, R st (set_hf_calls n st).
Hypothesis R_youtube : forall n st, R st (set_youtube_calls n st).
Hypothesis R_clock : forall n st, R st (set_clock_reads n st).
Hypothesis R_slept : forall l st, R st (set_slept l st).
Hypothesis R_files : forall f st, R st (set_files f st).
Hypothesis R_stdout : forall o st, R st (set_stdout o st).
Hypothesis R_stats : forall s st, R st (set_stats s st).
Hypothesis R_log_video : forall idea youtube_id youtube_url,
  preserves R (log_video env idea youtube_id youtube_url).
Hypothesis R_log_error : forall idea error,
  preserves R (log_error env idea error).

Lemma preserves_process_idea i idea : preserves R (process_idea env i idea).
Proof.
  unfold process_idea, try_block, except_block, print,
    add_total, add_successful, add_failed.
  frame;
    auto using preserves_generate_video_prompt, preserves_generate,
      preserves_upload, preserves_cleanup.
Qed.

Lemma preserves_process_ideas ideas :
  forall i, preserves R (process_ideas env i ideas).
Proof.
  induction ideas as [|idea rest IH]; intros i; cbn [process_ideas];
    frame; auto using preserves_process_idea.
Qed.

Hypothesis R_log_idea : forall idea, preserves R (log_idea env idea).

Lemma preserves_log_ideas ideas : preserves R (log_ideas env ideas).
Proof.
  induction ideas as [|idea rest IH]; cbn [log_ideas]; frame; auto.
Qed.

Lemma preserves_run_pipeline : preserves R (run_pipeline env).
Proof.
  unfold run_pipeline, strftime, print. frame;
    auto using preserves_initialize, preserves_generate_ideas,
      preserves_log_ideas, preserves_process_ideas, preserves_summary.
Qed.

End Loop.

End Footprint.

(** * Further properties of the spreadsheet logger *)

Lemma swallowed_never_raises (body : M unit) st e :
  fst (try_except body (fun _ => ret tt) st) <> Raise (Exception e).
Proof.
  unfold try_except, ret. destruct (body st) as [[[]|[e'|]] st1]; discriminate.
Qed.

Lemma pipeline_view_unchanged st st' :
  unchanged_on pipeline_view st st' <-> pipeline_view st' = pipeline_view st.
Proof. reflexivity. Qed.

(** X5: the three loggers cannot disturb the pipeline: whatever the Sheets
    API answers and whichever keys the idea lacks, they never raise an
    [Exception], and they change nothing but the spreadsheet, the count of
    its calls and the clock (no counter of another service, no pause, no
    file, no console line, no statistic). *)
Theorem loggers_are_harmless env idea youtube_id youtube_url error :
  harmless (log_idea env idea) /\
  harmless (log_video env idea youtube_id youtube_url) /\
  harmless (log_error env idea error).
Proof.
  repeat split; try apply swallowed_never_raises.
  - apply (preserves_log_idea (unchanged_on pipeline_view) env);
      intros; reflexivity.
  - apply (preserves_log_video (unchanged_on pipeline_view) env);
      intros; reflexivity.
  - apply (preserves_log_error (unchanged_on pipeline_view) env);
      intros; reflexivity.
Qed.

Lemma rows_of_alter (sh : gmap string (list (list cell))) (ws : string)
    (row : list cell) (name : string) :
  default [] (sh !! name) `prefix_of`
  default [] (alter (fun rows : list (list cell) => rows ++ [row]) ws sh !! name).
Proof.
  destruct (decide (ws = name)) as [->|Hne].
  - rewrite lookup_alter_eq. destruct (sh !! name); simpl; [|reflexivity].
    apply prefix_app_r. reflexivity.
  - rewrite lookup_alter_ne by exact Hne. reflexivity.
Qed.

Lemma rows_of_create (sh : gmap string (list (list cell))) (ws name : string) :
  sh !! ws = None ->
  default [] (sh !! name) `prefix_of` default [] (<[ws := []]> sh !! name).
Proof.
  intros Hnone. destruct (decide (ws = name)) as [->|Hne].
  - rewrite Hnone. apply prefix_nil.
  - rewrite lookup_insert_ne by exact Hne. reflexivity.
Qed.

Lemma append_only_sheet st st' : sheet st' = sheet st -> append_only st st'.
Proof. intros H name. unfold rows_of. rewrite H. reflexivity. Qed.

Lemma append_row_append_only env ws row :
  preserves append_only (append_row env ws row).
Proof.
  unfold append_row, api_call. frame.
  - apply append_only_sheet. reflexivity.
  - intros name. apply rows_of_alter.
Qed.

Lemma get_or_create_append_only env name headers :
  preserves append_only (_get_or_create_worksheet env name headers).
Proof.
  intros st other. destruct st as [c h y s k sl f sh o stt]. exec.
  oracle (gspread_call env s).
  destruct (sh !! name) eqn:Hname; exec; auto.
  oracle (gspread_call env (S s)).
  oracle (gspread_call env (S (S s)));
    (etransitivity; [apply (rows_of_create sh name other Hname)|]);
    first [apply rows_of_alter | reflexivity].
Qed.

Lemma log_idea_append_only env idea : preserves append_only (log_idea env idea).
Proof.
  unfold log_idea, strftime. frame;
    auto using get_or_create_append_only, append_row_append_only;
    apply append_only_sheet; reflexivity.
Qed.

Lemma log_video_append_only env idea youtube_id youtube_url :
  preserves append_only (log_video env idea youtube_id youtube_url).
Proof.
  unfold log_video, strftime. frame;
    auto using get_or_create_append_only, append_row_append_only;
    apply append_only_sheet; reflexivity.
Qed.

Lemma log_error_append_only env idea error :
  preserves append_only (log_error env idea error).
Proof.
  unfold log_error, strftime. frame;
    auto using get_or_create_append_only, append_row_append_only;
    apply append_only_sheet; reflexivity.
Qed.

(** X6: the spreadsheet is append-only for a whole run: whatever happens
    (failures of any service, missing keys, interrupts), every worksheet
    that existed before [run_pipeline] still begins with the rows it had;
    no row is deleted, changed or reordered. *)
Theorem run_is_append_only env st name :
  rows_of name st `prefix_of` rows_of name (snd (run_pipeline env st)).
Proof.
  apply (preserves_run_pipeline append_only env);
    try (intros; apply append_only_sheet; reflexivity).
  - apply log_video_append_only.
  - apply log_error_append_only.
  - apply log_idea_append_only.
Qed.

Lemma preserves_bind_post (R : relation State) `{!PreOrder R} {A B}
    (P : A -> Prop) (m : M A) (k : A -> M B) :
  preserves R m ->
  (forall st a st', m st = (Ok a, st') -> P a) ->
  (forall a, P a -> preserves R (k a)) ->
  preserves R (bind m k).
Proof.
  intros Hm HP Hk st. unfold bind. specialize (Hm st). specialize (HP st).
  destruct (m st) as [[a|e] st1]; simpl in *; [|exact Hm].
  etransitivity; [exact Hm | apply Hk; eauto].
Qed.

Lemma get_or_create_returns env name headers st ws st' :
  _get_or_create_worksheet env name headers st = (Ok ws, st') -> ws = name.
Proof.
  destruct st as [c h y s k sl f sh o stt]. exec.
  destruct (gspread_call env s) as [[]|[e|]]; exec; try discriminate.
  destruct (sh !! name); exec; [congruence|].
  destruct (gspread_call env (S s)) as [[]|[e|]]; exec; try discriminate.
  destruct (gspread_call env (S (S s))) as [[]|[e|]]; exec; congruence.
Qed.

Lemma get_or_create_own env name headers other :
  other <> name ->
  preserves (unchanged_on (fun st => sheet st !! other))
            (_get_or_create_worksheet env name headers).
Proof.
  intros Hne st. unfold unchanged_on.
  destruct st as [c h y s k sl f sh o stt]. exec.
  oracle (gspread_call env s).
  destruct (sh !! name); exec; auto.
  oracle (gspread_call env (S s)).
  oracle (gspread_call env (S (S s)));
    rewrite ?lookup_alter_ne, ?lookup_insert_ne by congruence; reflexivity.
Qed.

Lemma append_row_own env ws row other :
  other <> ws ->
  preserves (unchanged_on (fun st => sheet st !! other)) (append_row env ws row).
Proof.
  intros Hne. unfold append_row, api_call. frame.
  - reflexivity.
  - unfold unchanged_on. simpl. apply lookup_alter_ne. congruence.
Qed.

(** A logger that works on the worksheet [name] only. *)
Lemma logger_own env name headers (rest : string -> M unit) other :
  other <> name ->
  (forall ws, ws = name ->
     preserves (unchanged_on (fun st => sheet st !! other)) (rest ws)) ->
  preserves (unchanged_on (fun st => sheet st !! other))
    (try_except
       (bind (_get_or_create_worksheet env name headers) rest)
       (fun _ => ret tt)).
Proof.
  intros Hne Hrest.
  apply preserves_try_except; [apply _ | | intros; apply preserves_ret; apply _].
  apply (preserves_bind_post _ (fun ws => ws = name)).
  - apply get_or_create_own, Hne.
  - intros st ws st'. apply get_or_create_returns.
  - exact Hrest.
Qed.

Lemma log_idea_own env idea other :
  other <> "Ideas_Log" ->
  preserves (unchanged_on (fun st => sheet st !! other)) (log_idea env idea).
Proof.
  intros Hne. unfold log_idea. apply logger_own; [exact Hne|].
  intros ws ->. unfold strftime. frame; try reflexivity.
  apply append_row_own, Hne.
Qed.

Lemma log_video_own env idea youtube_id youtube_url other :
  other <> "Videos_Log" ->
  preserves (unchanged_on (fun st => sheet st !! other))
            (log_video env idea youtube_id youtube_url).
Proof.
  intros Hne. unfold log_video. apply logger_own; [exact Hne|].
  intros ws ->. unfold strftime. frame; try reflexivity.
  apply append_row_own, Hne.
Qed.

Lemma log_error_own env idea error other :
  other <> "Errors_Log" ->
  preserves (unchanged_on (fun st => sheet st !! other))
            (log_error env idea error).
Proof.
  intros Hne. unfold log_error. apply logger_own; [exact Hne|].
  intros ws ->. unfold strftime. frame; try reflexivity.
  apply append_row_own, Hne.
Qed.

(** X7: each logger writes its own worksheet only: [log_idea] leaves every
    worksheet but [Ideas_Log] as it was, [log_video] every worksheet but
    [Videos_Log], [log_error] every worksheet but [Errors_Log], whatever
    the Sheets API answers. *)
Theorem loggers_write_their_own_worksheet env idea youtube_id youtube_url
    error st other :
  (other <> "Ideas_Log" ->
   sheet (snd (log_idea env idea st)) !! other = sheet st !! other) /\
  (other <> "Videos_Log" ->
   sheet (snd (log_video env idea youtube_id youtube_url st)) !! other =
   sheet st !! other) /\
  (other <> "Errors_Log" ->
   sheet (snd (log_error env idea error st)) !! other = sheet st !! other).
Proof.
  split; [|split]; intros Hne.
  - apply (log_idea_own env idea other Hne st).
  - apply (log_video_own env idea youtube_id youtube_url other Hne st).
  - apply (log_error_own env idea error other Hne st).
Qed.

Lemma loggers_write_their_own_worksheet_witness :
  sheet (snd (log_error env_cold (sample_idea "Rise early") "boom" st0))
    !! "Ideas_Log" = sheet st0 !! "Ideas_Log".
Proof.
  destruct (loggers_write_their_own_worksheet env_cold
              (sample_idea "Rise early") "id" "url" "boom" st0 "Ideas_Log")
    as (_ & _ & H).
  apply H. discriminate.
Defined.

(** X8: the second loop never writes [Ideas_Log]: whatever becomes of an
    idea, the row that [log_idea] wrote for it keeps the status "pending";
    nothing ever updates it.  The loop writes [Videos_Log] and
    [Errors_Log] only. *)
Theorem processing_leaves_ideas_log env i ideas st other :
  other <> "Videos_Log" -> other <> "Errors_Log" ->
  sheet (snd (process_ideas env i ideas st)) !! other = sheet st !! other.
Proof.
  intros Hv He.
  apply (preserves_process_ideas
           (unchanged_on (fun st => sheet st !! other)) env);
    try (intros; reflexivity).
  - intros. apply log_video_own, Hv.
  - intros. apply log_error_own, He.
Qed.

Lemma processing_leaves_ideas_log_witness :
  sheet (snd (process_ideas env_second_refused 1 three_ideas st0))
    !! "Ideas_Log" = sheet st0 !! "Ideas_Log".
Proof.
  apply (processing_leaves_ideas_log env_second_refused 1 three_ideas st0
           "Ideas_Log"); discriminate.
Defined.

Lemma get_or_create_existing env name headers st rows :
  gspread_call env (sheets_calls st) = Ok tt ->
  sheet st !! name = Some rows ->
  _get_or_create_worksheet env name headers st =
    (Ok name, set_sheets_calls (S (sheets_calls st)) st).
Proof.
  intros Hok Hname. destruct st as [c h y s k sl f sh o stt].
  simpl in Hok, Hname. exec. rewrite Hok. exec. rewrite Hname. reflexivity.
Qed.

Lemma get_or_create_missing env name headers st :
  (forall n, gspread_call env n = Ok tt) ->
  sheet st !! name = None ->
  _get_or_create_worksheet env name headers st =
    (Ok name,
     set_sheet (<[name := [map CStr headers]]> (sheet st))
       (set_sheets_calls (S (S (S (sheets_calls st)))) st)).
Proof.
  intros Hok Hname. destruct st as [c h y s k sl f sh o stt].
  simpl in Hname. exec. rewrite !Hok. exec. rewrite Hname. exec.
  rewrite !Hok. exec. rewrite ?Hok. exec.
  do 2 f_equal. apply map_eq. intros other.
  destruct (decide (name = other)) as [->|Hne].
  - rewrite lookup_alter_eq, !lookup_insert_eq. reflexivity.
  - rewrite lookup_alter_ne, !lookup_insert_ne by exact Hne. reflexivity.
Qed.

(** X9: [_get_or_create_worksheet] creates a worksheet once.  When the
    Sheets API answers: a worksheet that exists is returned as it is, after
    one call; a worksheet that does not exist is created with the header
    row as its only row; and a second call then finds it and changes
    nothing, so the header is written once. *)
Theorem get_or_create_worksheet_once env name headers st :
  (forall n, gspread_call env n = Ok tt) ->
  exists st1 st2,
    _get_or_create_worksheet env name headers st = (Ok name, st1) /\
    sheet st1 !! name =
      Some (match sheet st !! name with
            | Some rows => rows
            | None => [map CStr headers]
            end) /\
    (is_Some (sheet st !! name) ->
     sheet st1 = sheet st /\ sheets_calls st1 = S (sheets_calls st)) /\
    _get_or_create_worksheet env name headers st1 = (Ok name, st2) /\
    sheet st2 = sheet st1.
Proof.
  intros Hok. destruct (sheet st !! name) as [rows|] eqn:Hname.
  - rewrite (get_or_create_existing env name headers st rows (Hok _) Hname).
    do 2 eexists. split; [reflexivity|]. split; [exact Hname|].
    split; [intros _; split; reflexivity|].
    split;
      [apply (get_or_create_existing env name headers _ rows (Hok _));
       exact Hname
      | reflexivity].
  - rewrite (get_or_create_missing env name headers st Hok Hname).
    do 2 eexists. split; [reflexivity|].
    split; [apply lookup_insert_eq|].
    split; [intros [x Hx]; discriminate|].
    split;
      [apply (get_or_create_existing env name headers _ [map CStr headers]
                (Hok _));
       apply lookup_insert_eq
      | reflexivity].
Qed.

Lemma get_or_create_worksheet_once_witness :
  exists st1 st2,
    _get_or_create_worksheet env_cold "Errors_Log" ["Timestamp"; "Title"] st0 =
      (Ok "Errors_Log", st1) /\
    sheet st1 !! "Errors_Log" = Some [[CStr "Timestamp"; CStr "Title"]] /\
    _get_or_create_worksheet env_cold "Errors_Log" ["Timestamp"; "Title"] st1 =
      (Ok "Errors_Log", st2) /\
    sheet st2 = sheet st1.
Proof.
  destruct (get_or_create_worksheet_once env_cold "Errors_Log"
              ["Timestamp"; "Title"] st0 (fun _ => eq_refl))
    as (st1 & st2 & H1 & Hrows & _ & H2 & Hsame).
  exists st1, st2. auto.
Defined.

#[local] Instance adds_only_preorder name P : PreOrder (adds_only name P).
Proof.
  split; [intros st row; auto|].
  intros st1 st2 st3 H12 H23 row Hrow.
  destruct (H23 row Hrow) as [H|H]; auto.
Qed.

Lemma adds_only_sheet name P st st' :
  sheet st' = sheet st -> adds_only name P st st'.
Proof. intros H row. unfold rows_of. rewrite H. auto. Qed.

Lemma adds_only_weaken name (P Q : list cell -> Prop) st st' :
  (forall row, P row -> Q row) -> adds_only name P st st' ->
  adds_only name Q st st'.
Proof. intros HPQ H row Hrow. destruct (H row Hrow); auto. Qed.

(** A call whose value the rest of the computation may rely on. *)
Lemma preserves_bind_getitem (R : relation State) `{!PreOrder R} {A B}
    key (v : option A) (k : A -> M B) :
  (forall a, v = Some a -> preserves R (k a)) ->
  preserves R (bind (getitem key v) k).
Proof.
  intros Hk. destruct v as [a|]; intros st; unfold bind, getitem, ret, raise.
  - apply (Hk a eq_refl).
  - reflexivity.
Qed.

Lemma append_row_adds env name P ws row :
  P row -> preserves (adds_only name P) (append_row env ws row).
Proof.
  intros HP. unfold append_row, api_call. frame.
  - apply adds_only_sheet. reflexivity.
  - intros r. unfold rows_of. simpl.
    destruct (decide (ws = name)) as [->|Hne].
    + rewrite lookup_alter_eq. destruct (sheet st !! name); simpl; auto.
      rewrite elem_of_app, list_elem_of_singleton. intros [H | ->]; auto.
    + rewrite lookup_alter_ne by exact Hne. auto.
Qed.

Lemma get_or_create_adds env name headers other :
  preserves (adds_only other (fun row => row = map CStr headers))
            (_get_or_create_worksheet env name headers).
Proof.
  intros st.
  assert (Hcreate : forall sh : gmap string (list (list cell)),
            sh !! name = None ->
            forall row : list cell,
              row ∈ default [] (<[name := []]> sh !! other) ->
              row ∈ default [] (sh !! other)).
  { intros sh Hnone row. destruct (decide (name = other)) as [->|Hne].
    - rewrite lookup_insert_eq. simpl. rewrite elem_of_nil. tauto.
    - rewrite lookup_insert_ne by exact Hne. auto. }
  destruct st as [c h y s k sl f sh o stt]. intros row. exec.
  oracle (gspread_call env s).
  destruct (sh !! name) eqn:Hname; exec; auto.
  oracle (gspread_call env (S s)).
  oracle (gspread_call env (S (S s))); auto.
  destruct (decide (name = other)) as [->|Hne].
  - rewrite lookup_alter_eq, lookup_insert_eq. simpl.
    rewrite list_elem_of_singleton. auto.
  - rewrite lookup_alter_ne by exact Hne. auto.
Qed.

(** X10: the record of [log_idea].  Whatever the Sheets API answers, the
    only rows that [log_idea] can add to [Ideas_Log] are the header row of
    a new worksheet and one row made of the idea's six fields with the
    status "pending"; an idea that lacks one of the six keys gets no row
    (the [KeyError] is swallowed).  When the API answers and the idea has
    its six keys, that row is appended. *)
Theorem log_idea_record env idea st :
  (forall row,
     row ∈ rows_of "Ideas_Log" (snd (log_idea env idea st)) ->
     row ∈ rows_of "Ideas_Log" st \/
     row = map CStr ["Timestamp"; "Title"; "Description"; "Hook";
                     "Target Audience"; "Virality Score"; "Keywords";
                     "Status"] \/
     exists ts t d h a v kws,
       idea = mkIdea (Some t) (Some d) (Some h) (Some a) (Some v) (Some kws) /\
       row = idea_row ts t d h a v kws) /\
  (forall t d h a v kws,
     (forall n, gspread_call env n = Ok tt) ->
     idea = mkIdea (Some t) (Some d) (Some h) (Some a) (Some v) (Some kws) ->
     exists ts rows,
       rows_of "Ideas_Log" (snd (log_idea env idea st)) =
       rows ++ [idea_row ts t d h a v kws]).
Proof.
  split.
  - revert st. change (preserves (adds_only "Ideas_Log" (fun row =>
      row = map CStr ["Timestamp"; "Title"; "Description"; "Hook";
                      "Target Audience"; "Virality Score"; "Keywords";
                      "Status"] \/
      exists ts t d h a v kws,
        idea = mkIdea (Some t) (Some d) (Some h) (Some a) (Some v) (Some kws) /\
        row = idea_row ts t d h a v kws)) (log_idea env idea)).
    unfold log_idea, strftime.
    refine (preserves_try_except _ _ _ _ _); [|intros; frame].
    refine (preserves_bind _ _ _ _ _).
    { eapply preserves_weaken; [|apply get_or_create_adds].
      intros st st'. apply adds_only_weaken. auto. }
    intros ws. refine (preserves_bind _ _ _ _ _).
    { frame. apply adds_only_sheet. reflexivity. }
    intros ts. destruct idea as [ti de ho ta vi ke]. simpl.
    do 6 (apply preserves_bind_getitem; [apply _|]; intros ? ->).
    apply append_row_adds. right. eauto 10.
  - intros t d h a v kws Hok ->. destruct st as [c hf y s k sl f sh o stt].
    exec. rewrite !Hok.
    destruct (sh !! "Ideas_Log") as [rows|] eqn:Hrows; exec; rewrite !Hok; exec.
    + rewrite lookup_alter_eq, Hrows. simpl. do 2 eexists. reflexivity.
    + rewrite !lookup_alter_eq, lookup_insert_eq. simpl.
      refine (ex_intro _ _ (ex_intro _ [_] _)). reflexivity.
Qed.

Lemma log_idea_record_witness :
  exists ts rows,
    rows_of "Ideas_Log" (snd (log_idea env_cold (sample_idea "Rise early") st0)) =
    rows ++ [idea_row ts "Rise early" "Small steps, every day" "Stop scrolling"
               "students" 7 ["daily habits"; "focus"]].
Proof.
  destruct (log_idea_record env_cold (sample_idea "Rise early") st0) as [_ H].
  apply H; [intros n | ]; reflexivity.
Defined.

(** X11: the record of [log_video].  Whatever the Sheets API answers, the
    only rows that [log_video] can add to [Videos_Log] are the header row
    of a new worksheet and one row with the idea's title, the URL and the
    id of the video, the status "published", the score and the keywords;
    that row is appended when the API answers and the idea has the three
    keys that the row reads. *)
Theorem log_video_record env idea youtube_id youtube_url st :
  (forall row,
     row ∈ rows_of "Videos_Log"
             (snd (log_video env idea youtube_id youtube_url st)) ->
     row ∈ rows_of "Videos_Log" st \/
     row = map CStr ["Timestamp"; "Title"; "YouTube URL"; "YouTube ID";
                     "Status"; "Virality Score"; "Keywords"] \/
     exists ts t v kws,
       title idea = Some t /\ virality_score idea = Some v /\
       keywords idea = Some kws /\
       row = video_row ts t youtube_url youtube_id v kws) /\
  (forall t v kws,
     (forall n, gspread_call env n = Ok tt) ->
     title idea = Some t -> virality_score idea = Some v ->
     keywords idea = Some kws ->
     exists ts rows,
       rows_of "Videos_Log"
         (snd (log_video env idea youtube_id youtube_url st)) =
       rows ++ [video_row ts t youtube_url youtube_id v kws]).
Proof.
  split.
  - revert st. change (preserves (adds_only "Videos_Log" (fun row =>
      row = map CStr ["Timestamp"; "Title"; "YouTube URL"; "YouTube ID";
                      "Status"; "Virality Score"; "Keywords"] \/
      exists ts t v kws,
        title idea = Some t /\ virality_score idea = Some v /\
        keywords idea = Some kws /\
        row = video_row ts t youtube_url youtube_id v kws))
      (log_video env idea youtube_id youtube_url)).
    unfold log_video, strftime.
    refine (preserves_try_except _ _ _ _ _); [|intros; frame].
    refine (preserves_bind _ _ _ _ _).
    { eapply preserves_weaken; [|apply get_or_create_adds].
      intros st st'. apply adds_only_weaken. auto. }
    intros ws. refine (preserves_bind _ _ _ _ _).
    { frame. apply adds_only_sheet. reflexivity. }
    intros ts.
    do 3 (apply preserves_bind_getitem; [apply _|]; intros ? ?).
    apply append_row_adds. right. eauto 10.
  - intros t v kws Hok Ht Hv Hk. destruct st as [c hf y s k sl f sh o stt].
    destruct idea as [ti de ho ta vi ke]. simpl in Ht, Hv, Hk. subst.
    exec. rewrite !Hok.
    destruct (sh !! "Videos_Log") as [rows|] eqn:Hrows; exec;
      rewrite ?Hok; exec.
    + rewrite lookup_alter_eq, Hrows. simpl. do 2 eexists. reflexivity.
    + rewrite !lookup_alter_eq, lookup_insert_eq. simpl.
      refine (ex_intro _ _ (ex_intro _ [_] _)). reflexivity.
Qed.

Lemma log_video_record_witness :
  exists ts rows,
    rows_of "Videos_Log"
      (snd (log_video env_cold (sample_idea "Rise early") "yt"
              "https://youtube.com/watch?v=yt" st0)) =
    rows ++ [video_row ts "Rise early" "https://youtube.com/watch?v=yt" "yt" 7
               ["daily habits"; "focus"]].
Proof.
  destruct (log_video_record env_cold (sample_idea "Rise early") "yt"
              "https://youtube.com/watch?v=yt" st0) as [_ H].
  apply H; [intros n | | |]; reflexivity.
Defined.

(** X12: a header that could not be written is never written.  When the
    worksheet [Errors_Log] is created but the call that appends its header
    row fails, [log_error] gives up without logging its record (the
    exception is swallowed), and the worksheet is left empty; the next
    [log_error] finds the worksheet and appends its record as the first
    row, without a header. *)
Theorem failed_header_is_never_written env idea error idea' error' st e :
  sheet st !! "Errors_Log" = None ->
  gspread_call env (sheets_calls st) = Ok tt ->
  gspread_call env (S (sheets_calls st)) = Ok tt ->
  gspread_call env (S (S (sheets_calls st))) = Raise (Exception e) ->
  (forall n, (S (S (sheets_calls st)) < n)%nat -> gspread_call env n = Ok tt) ->
  let r := log_error env idea error st in
  fst r = Ok tt /\
  sheet (snd r) !! "Errors_Log" = Some [] /\
  exists ts,
    rows_of "Errors_Log" (snd (log_error env idea' error' (snd r))) =
    [error_row ts idea' error'].
Proof.
  intros Hnone H0 H1 H2 Hlater. destruct st as [c hf y s k sl f sh o stt].
  simpl in Hnone, H0, H1, H2, Hlater.
  exec. rewrite H0. exec. rewrite Hnone. exec. rewrite H1. exec.
  rewrite H2. exec. rewrite !lookup_insert_eq.
  split; [reflexivity|]. split; [reflexivity|].
  rewrite !(Hlater (S (S (S s)))) by lia. exec.
  rewrite !(Hlater (S (S (S (S s))))) by lia. exec.
  rewrite lookup_alter_eq, lookup_insert_eq. simpl. eauto.
Qed.

Lemma failed_header_is_never_written_witness :
  let r := log_error env_header_fails (sample_idea "Rise early") "first" st0 in
  fst r = Ok tt /\
  sheet (snd r) !! "Errors_Log" = Some [] /\
  exists ts,
    rows_of "Errors_Log"
      (snd (log_error env_header_fails (sample_idea "Read more") "second"
              (snd r))) =
    [error_row ts (sample_idea "Read more") "second"].
Proof.
  apply (failed_header_is_never_written env_header_fails
           (sample_idea "Rise early") "first" (sample_idea "Read more")
           "second" st0 "APIError 500"); try reflexivity.
  intros [|[|[|n]]] Hn; try reflexivity; simpl in Hn; lia.
Defined.

(** * Further properties of the uploader *)

(** X13: [upload] reads the keys [title], [keywords], [description] and
    [hook] before it contacts YouTube: when one of them is missing it
    raises the [KeyError] of the first missing key, in that order, and
    nothing has been sent (the state is as it was). *)
Theorem upload_missing_key env video_path idea st :
  title idea = None \/ keywords idea = None \/
  description idea = None \/ hook idea = None ->
  let key :=
    match title idea, keywords idea, description idea with
    | None, _, _ => "title"
    | Some _, None, _ => "keywords"
    | Some _, Some _, None => "description"
    | Some _, Some _, Some _ => "hook"
    end in
  upload env video_path idea st = (Raise (Exception ("'" +:+ key +:+ "'")), st).
Proof.
  intros Hmissing. unfold upload, upload_body, bind, getitem, ret, raise.
  destruct (title idea) as [t|]; [|reflexivity].
  destruct (keywords idea) as [kws|]; [|reflexivity].
  destruct (description idea) as [d|]; [|reflexivity].
  destruct (hook idea) as [h|]; [|reflexivity].
  destruct Hmissing as [H|[H|[H|H]]]; discriminate.
Qed.

Lemma upload_missing_key_witness :
  upload env_warm "video_0.mp4"
    (mkIdea (Some "No keywords") (Some "d") (Some "h") (Some "a") (Some 5) None)
    st0 = (Raise (Exception "'keywords'"), st0).
Proof.
  apply (upload_missing_key env_warm "video_0.mp4"
           (mkIdea (Some "No keywords") (Some "d") (Some "h") (Some "a")
                   (Some 5) None) st0).
  right. left. reflexivity.
Defined.

Lemma remove_char_chars c s :
  String.list_ascii_of_string (remove_char c s) =
  List.filter (fun a => negb (Ascii.eqb a c)) (String.list_ascii_of_string s).
Proof.
  induction s as [|a s IH]; [reflexivity|]. simpl.
  destruct (Ascii.eqb a c); simpl; [exact IH | f_equal; exact IH].
Qed.

Lemma remove_char_absent c s :
  c ∉ String.list_ascii_of_string (remove_char c s).
Proof.
  rewrite remove_char_chars, list_elem_of_In, filter_In.
  intros [_ H]. rewrite Ascii.eqb_refl in H. discriminate.
Qed.

(** X14: no tag that [upload] sends contains a space: the six fixed tags
    have none, and a keyword becomes a tag by losing its spaces and
    nothing else (its other characters stay, in their order). *)
Theorem upload_tags_have_no_space idea st body st' :
  upload_body idea st = (Ok body, st') ->
  Forall (fun tag => Ascii.Space ∉ String.list_ascii_of_string tag)
         (snippet_tags body) /\
  forall kw,
    String.list_ascii_of_string (remove_spaces kw) =
    List.filter (fun a => negb (Ascii.eqb a Ascii.Space))
                (String.list_ascii_of_string kw).
Proof.
  intros Hrun. split; [|intros kw; apply remove_char_chars].
  unfold upload_body, bind, getitem, ret, raise in Hrun.
  destruct (title idea) as [t|]; [|discriminate].
  destruct (keywords idea) as [kws|]; [|discriminate].
  destruct (description idea) as [d|]; [|discriminate].
  destruct (hook idea) as [h|]; [|discriminate].
  injection Hrun as <- _. cbn [snippet_tags].
  repeat (apply Forall_cons; split;
          [rewrite list_elem_of_In; simpl; intuition discriminate|]).
  apply Forall_take, Forall_forall. intros tag Htag.
  apply list_elem_of_In, in_map_iff in Htag as (kw & <- & _).
  apply remove_char_absent.
Qed.

Lemma upload_tags_have_no_space_witness :
  exists body,
    upload_body (sample_idea "Rise early") st0 = (Ok body, st0) /\
    Forall (fun tag => Ascii.Space ∉ String.list_ascii_of_string tag)
           (snippet_tags body).
Proof.
  eexists. split; [reflexivity|].
  apply (upload_tags_have_no_space (sample_idea "Rise early") st0 _ st0).
  reflexivity.
Defined.

(** * What a batch costs *)

Lemma total_wait_app ws ws' :
  total_wait (ws ++ ws') = total_wait ws + total_wait ws'.
Proof. induction ws as [|w ws IH]; simpl; [reflexivity | rewrite IH; lia]. Qed.

Lemma total_wait_nonneg ws :
  Forall (fun w => RETRY_WAIT <= w) ws -> 0 <= total_wait ws.
Proof.
  induction 1 as [|w ws Hw _ IH]; simpl; [lia|]. unfold RETRY_WAIT in Hw. lia.
Qed.

Lemma spends_free {A} (m : M A) :
  preserves (unchanged_on meter_view) m -> spends 0 0 0 0 m.
Proof.
  intros Hm st. specialize (Hm st). unfold unchanged_on, meter_view in Hm.
  injection Hm as Hc Hh Hy Hs. rewrite Hc, Hh, Hy, Hs.
  repeat split; try lia. exists []. rewrite app_nil_r. simpl.
  split; [reflexivity | lia].
Qed.

Lemma spends_weaken {A} (a b c : nat) w (a' b' c' : nat) w' (m : M A) :
  spends a b c w m ->
  (a <= a')%nat -> (b <= b')%nat -> (c <= c')%nat -> w <= w' ->
  spends a' b' c' w' m.
Proof.
  intros Hm Ha Hb Hc Hw st.
  destruct (Hm st) as (H1 & H2 & H3 & ws & Hws & Hsum).
  repeat split; try lia. exists ws. split; [exact Hws | lia].
Qed.

Lemma spends_bind {A B} (a b c : nat) w (a' b' c' : nat) w'
    (m : M A) (k : A -> M B) :
  0 <= w' ->
  spends a b c w m -> (forall x, spends a' b' c' w' (k x)) ->
  spends (a + a') (b + b') (c + c') (w + w') (bind m k).
Proof.
  intros Hw' Hm Hk st. unfold bind.
  destruct (Hm st) as (H1 & H2 & H3 & ws & Hws & Hsum).
  destruct (m st) as [[x|e] st1]; simpl in *.
  - destruct (Hk x st1) as (H1' & H2' & H3' & ws' & Hws' & Hsum').
    repeat split; try lia. exists (ws ++ ws').
    rewrite Hws', Hws, <- app_assoc, total_wait_app.
    split; [reflexivity | lia].
  - repeat split; try lia. exists ws. split; [exact Hws | lia].
Qed.

Lemma spends_try_except {A} (a b c : nat) w (a' b' c' : nat) w'
    (body : M A) handler :
  0 <= w' ->
  spends a b c w body -> (forall e, spends a' b' c' w' (handler e)) ->
  spends (a + a') (b + b') (c + c') (w + w') (try_except body handler).
Proof.
  intros Hw' Hm Hk st. unfold try_except.
  destruct (Hm st) as (H1 & H2 & H3 & ws & Hws & Hsum).
  destruct (body st) as [[x|[e|]] st1]; simpl in *.
  - repeat split; try lia. exists ws. split; [exact Hws | lia].
  - destruct (Hk e st1) as (H1' & H2' & H3' & ws' & Hws' & Hsum').
    repeat split; try lia. exists (ws ++ ws').
    rewrite Hws', Hws, <- app_assoc, total_wait_app.
    split; [reflexivity | lia].
  - repeat split; try lia. exists ws. split; [exact Hws | lia].
Qed.

Section Costs.

Variable env : Env.

Lemma spends_generate_video_prompt idea :
  spends 1 0 0 0 (generate_video_prompt env idea).
Proof.
  intros st.
  destruct (generate_video_prompt env idea st) as [r st'] eqn:Hrun.
  apply generate_video_prompt_state in Hrun as [-> | ->]; simpl;
    (repeat split; try lia; exists []; rewrite app_nil_r; simpl;
     split; [reflexivity | lia]).
Qed.

Lemma spends_generate prompt :
  spends 0 10 0 1100 (generate env prompt MAX_RETRIES).
Proof.
  intros st.
  assert (Hsame : preserves
            (unchanged_on (fun st => (claude_calls st, youtube_calls st)))
            (generate env prompt MAX_RETRIES))
    by (apply preserves_generate; [apply _ | ..]; intros; reflexivity).
  specialize (Hsame st). unfold unchanged_on in Hsame.
  injection Hsame as Hc Hy.
  destruct (generate_loop_budget env prompt MAX_RETRIES
              (Z.to_nat MAX_RETRIES) 0 st ltac:(lia))
    as (Hreq & ws & Hws & Hlen & Hall & Hsum).
  change (generate_loop env (Z.to_nat MAX_RETRIES) prompt MAX_RETRIES 0 st)
    with (generate env prompt MAX_RETRIES st) in Hreq, Hws, Hlen.
  change (Z.to_nat (MAX_RETRIES - 0)) with 10%nat in Hreq.
  rewrite Hc, Hy. split; [lia|]. split; [lia|]. split; [lia|].
  exists ws. split; [exact Hws|].
  split; [apply total_wait_nonneg, Hall|].
  unfold MAX_RETRIES, RETRY_WAIT in Hsum. lia.
Qed.

Lemma upload_state video_path idea st r st' :
  upload env video_path idea st = (r, st') ->
  st' = st \/ st' = set_youtube_calls (S (youtube_calls st)) st.
Proof.
  unfold upload, upload_body, bind, getitem, ret, raise, try_except, call.
  destruct (title idea); [|intros [= _ <-]; auto].
  destruct (keywords idea); [|intros [= _ <-]; auto].
  destruct (description idea); [|intros [= _ <-]; auto].
  destruct (hook idea); [|intros [= _ <-]; auto].
  destruct (videos_insert env _ _ _) as [p|[e|]]; intros [= _ <-]; auto.
Qed.

Lemma spends_upload video_path idea :
  spends 0 0 1 0 (upload env video_path idea).
Proof.
  intros st.
  destruct (upload env video_path idea st) as [r st'] eqn:Hrun.
  apply upload_state in Hrun as [-> | ->]; simpl;
    (repeat split; try lia; exists []; rewrite app_nil_r; simpl;
     split; [reflexivity | lia]).
Qed.

Lemma free_log_video idea youtube_id youtube_url :
  preserves (unchanged_on meter_view)
            (log_video env idea youtube_id youtube_url).
Proof. apply preserves_log_video; [apply _ | ..]; intros; reflexivity. Qed.

Lemma free_log_error idea error :
  preserves (unchanged_on meter_view) (log_error env idea error).
Proof. apply preserves_log_error; [apply _ | ..]; intros; reflexivity. Qed.

Lemma spends_try_block i idea : spends 1 10 1 1100 (try_block env i idea).
Proof.
  unfold try_block.
  apply (spends_bind 1 0 0 0 0 10 1 1100); [lia | |intros video_prompt].
  { apply spends_generate_video_prompt. }
  apply (spends_bind 0 10 0 1100 0 0 1 0); [lia | |intros [video_path|]].
  { apply spends_generate. }
  - apply (spends_bind 0 0 1 0 0 0 0 0); [lia | |intros [video_id video_url]].
    { apply spends_upload. }
    apply spends_free. unfold print, add_successful. frame;
      try reflexivity.
    + apply free_log_video.
    + apply preserves_cleanup; [apply _ | ..]; intros; reflexivity.
  - apply (spends_weaken 0 0 0 0); try lia.
    apply spends_free. frame.
Qed.

Lemma spends_process_idea i idea : spends 1 10 1 1100 (process_idea env i idea).
Proof.
  unfold process_idea.
  do 5 (apply (spends_bind 0 0 0 0 1 10 1 1100);
        [lia | apply spends_free; unfold add_total; frame; reflexivity
        | intros ?]).
  apply (spends_try_except 1 10 1 1100 0 0 0 0); [lia | |intros e].
  - apply spends_try_block.
  - apply spends_free. unfold except_block, print, add_failed.
    frame; try reflexivity. apply free_log_error.
Qed.

Lemma spends_process_ideas ideas :
  forall i,
    spends (length ideas) (10 * length ideas) (length ideas)
           (1100 * Z.of_nat (length ideas)) (process_ideas env i ideas).
Proof.
  induction ideas as [|idea rest IH]; intros i; cbn [process_ideas].
  - apply (spends_weaken 0 0 0 0); simpl; try lia. apply spends_free. frame.
  - eapply spends_weaken.
    + apply (spends_bind 1 10 1 1100 (length rest) (10 * length rest)
               (length rest) (1100 * Z.of_nat (length rest)));
        [lia | apply spends_process_idea | intros _; apply IH].
    + simpl; lia.
    + simpl; lia.
    + simpl; lia.
    + rewrite length_cons. lia.
Qed.

End Costs.

(** X15: what a batch costs at most.  The loop over [N] ideas makes at
    most [N] requests to the prompt model, [10 N] requests to the
    inference endpoint and [N] uploads, and sleeps at most [1100 N]
    seconds in total, whatever the services answer. *)
Theorem batch_cost env i ideas st :
  let st' := snd (process_ideas env i ideas st) in
  let n := length ideas in
  (claude_calls st' <= claude_calls st + n)%nat /\
  (hf_calls st' <= hf_calls st + 10 * n)%nat /\
  (youtube_calls st' <= youtube_calls st + n)%nat /\
  exists ws, slept st' = slept st ++ ws /\
             0 <= total_wait ws <= 1100 * Z.of_nat n.
Proof.
  cbv zeta.
  destruct (spends_process_ideas env ideas i st) as (H1 & H2 & H3 & H4).
  repeat split; try lia. exact H4.
Qed.

(** * The statistics at any exit of the loop *)

Section StatsAnyEnv.

Variable env : Env.

Lemma stats_generate_video_prompt idea :
  preserves (unchanged_on stats) (generate_video_prompt env idea).
Proof.
  apply preserves_generate_video_prompt; [apply _ | ..]; intros; reflexivity.
Qed.

Lemma stats_generate prompt max_retries :
  preserves (unchanged_on stats) (generate env prompt max_retries).
Proof. apply preserves_generate; [apply _ | ..]; intros; reflexivity. Qed.

Lemma stats_upload video_path idea :
  preserves (unchanged_on stats) (upload env video_path idea).
Proof. apply preserves_upload; [apply _ | ..]; intros; reflexivity. Qed.

Lemma stats_log_video idea youtube_id youtube_url :
  preserves (unchanged_on stats) (log_video env idea youtube_id youtube_url).
Proof. apply preserves_log_video; [apply _ | ..]; intros; reflexivity. Qed.

Lemma stats_log_error idea error :
  preserves (unchanged_on stats) (log_error env idea error).
Proof. apply preserves_log_error; [apply _ | ..]; intros; reflexivity. Qed.

Lemma stats_cleanup video_path :
  preserves (unchanged_on stats) (cleanup video_path).
Proof. apply preserves_cleanup; [apply _ | ..]; intros; reflexivity. Qed.

(** The [try] block counts a success exactly when it ends normally. *)
Lemma try_block_stats i idea st :
  match try_block env i idea st with
  | (Ok _, st') => stats st' = stats (add_successful st)
  | (Raise _, st') => stats st' = stats st
  end.
Proof.
  unfold try_block, bind.
  pose proof (stats_generate_video_prompt idea st) as H1.
  destruct (generate_video_prompt env idea st) as [[p|e] st1];
    unfold unchanged_on in H1; simpl in H1; [|exact H1].
  pose proof (stats_generate p MAX_RETRIES st1) as H2.
  destruct (generate env p MAX_RETRIES st1) as [[[path|]|e] st2];
    unfold unchanged_on in H2; simpl in H2; try (simpl; congruence).
  pose proof (stats_upload path idea st2) as H3.
  destruct (upload env path idea st2) as [[[id url]|e] st3];
    unfold unchanged_on in H3; simpl in H3; try congruence.
  pose proof (stats_log_video idea id url st3) as H4.
  destruct (log_video env idea id url st3) as [[[]|e] st4];
    unfold unchanged_on in H4; simpl in H4; try congruence.
  pose proof (stats_cleanup path st4) as H5.
  destruct (cleanup path st4) as [[[]|e] st5];
    unfold unchanged_on in H5; simpl in H5; try congruence.
  simpl. congruence.
Qed.

(** The [except] block counts a failure, whatever becomes of its log. *)
Lemma except_block_stats i idea e st :
  stats (snd (except_block env i idea e st)) = stats (add_failed st).
Proof.
  unfold except_block, bind, print, modify. cbv beta iota.
  exact (stats_log_error idea e
           (set_stdout (stdout (add_failed st) ++ [VideoFailed i e])
                       (add_failed st))).
Qed.

(** One iteration, however it ends: the idea is counted in [total], and
    at most once in [successful] or [failed]; exactly once when the
    iteration ends normally. *)
Lemma process_idea_stats i idea st :
  let r := process_idea env i idea st in
  total (stats (snd r)) = total (stats st) + 1 /\
  successful (stats st) <= successful (stats (snd r)) /\
  failed (stats st) <= failed (stats (snd r)) /\
  backlog st <= backlog (snd r) <= backlog st + 1 /\
  (fst r = Ok tt -> backlog (snd r) = backlog st).
Proof.
  cbv zeta. unfold process_idea, backlog.
  unfold bind, modify, getitem, ret, raise.
  destruct (title idea); [|simpl; repeat split; (lia || discriminate)].
  destruct (hook idea); [|simpl; repeat split; (lia || discriminate)].
  destruct (target_audience idea);
    [|simpl; repeat split; (lia || discriminate)].
  destruct (virality_score idea);
    [|simpl; repeat split; (lia || discriminate)].
  unfold try_except.
  pose proof (try_block_stats i idea (add_total st)) as Htry.
  destruct (try_block env i idea (add_total st)) as [[[]|[e|]] st1].
  - simpl. rewrite Htry. simpl. repeat split; lia.
  - rewrite (except_block_stats i idea e st1). simpl. rewrite Htry. simpl.
    repeat split; lia.
  - simpl. rewrite Htry. simpl. repeat split; (lia || discriminate).
Qed.

End StatsAnyEnv.

(** X16: the statistics at any exit of the loop.  However the loop over
    the ideas ends (normally, on a [KeyError] of an idea that cannot be
    displayed, or on an interrupt), the counters only grow, [total] has
    grown by at most the size of the batch, and at most one idea is
    counted in [total] without being counted in [successful] or
    [failed]: the idea in flight when the loop was left.  When the loop
    ends normally there is none, and [total] has grown by the size of the
    batch. *)
Theorem backlog_is_at_most_one env ideas :
  forall i st,
    let r := process_ideas env i ideas st in
    total (stats st) <= total (stats (snd r)) <=
      total (stats st) + Z.of_nat (length ideas) /\
    successful (stats st) <= successful (stats (snd r)) /\
    failed (stats st) <= failed (stats (snd r)) /\
    backlog st <= backlog (snd r) <= backlog st + 1 /\
    (fst r = Ok tt ->
     backlog (snd r) = backlog st /\
     total (stats (snd r)) = total (stats st) + Z.of_nat (length ideas)).
Proof.
  induction ideas as [|idea rest IH]; intros i st; cbv zeta;
    cbn [process_ideas].
  - simpl. repeat split; lia.
  - unfold bind.
    pose proof (process_idea_stats env i idea st) as Hone. cbv zeta in Hone.
    destruct (process_idea env i idea st) as [[[]|e] st1]; simpl in Hone.
    + destruct Hone as (Ht & Hs & Hf & Hb & Hok). specialize (Hok eq_refl).
      specialize (IH (S i) st1). cbv zeta in IH.
      destruct IH as (Ht' & Hs' & Hf' & Hb' & Hok').
      rewrite length_cons.
      split; [lia|]. split; [lia|]. split; [lia|]. split; [lia|].
      intros Hrun. destruct (Hok' Hrun). split; lia.
    + destruct Hone as (Ht & Hs & Hf & Hb & _).
      simpl length. simpl fst. simpl snd.
      repeat split; (lia || discriminate).
Qed.

Lemma backlog_is_at_most_one_witness :
  fst (process_ideas env_warm 1 three_ideas st0) = Ok tt /\
  backlog (snd (process_ideas env_warm 1 three_ideas st0)) = backlog st0 /\
  total (stats (snd (process_ideas env_warm 1 three_ideas st0))) =
    total (stats st0) + 3.
Proof.
  split; [vm_compute; reflexivity|].
  destruct (backlog_is_at_most_one env_warm three_ideas 1 st0)
    as (_ & _ & _ & _ & H).
  apply H. vm_compute. reflexivity.
Defined.

(** * Further properties of the run *)

(** X17: when the clients cannot be built, [run_pipeline] prints the
    error and returns normally: it does not raise, it contacts no service
    (no counter moves, the spreadsheet is as it was), and the statistics
    are not even initialised. *)
Theorem init_failure_returns env st e :
  init_clients env = Raise (Exception e) ->
  run_pipeline env st =
    (Ok tt,
     set_stdout (stdout st ++ [InitFailed e])
       (set_clock_reads (S (clock_reads st)) st)).
Proof.
  intros Hinit.
  unfold run_pipeline, initialize, strftime, bind, call, try_except,
    of_result, ret, print, modify.
  rewrite Hinit. reflexivity.
Qed.

Lemma init_failure_returns_witness :
  run_pipeline env_init_fails st0 =
    (Ok tt,
     set_stdout (stdout st0 ++ [InitFailed "sheets_creds.json not found"])
       (set_clock_reads (S (clock_reads st0)) st0)).
Proof.
  apply (init_failure_returns env_init_fails st0 "sheets_creds.json not found").
  reflexivity.
Defined.

(** X18: an empty batch.  When the idea model returns no idea,
    [run_pipeline] returns normally after printing the summary 0/0/0 and
    "No videos were published"; it has made one request to the model and
    none to the inference endpoint, to YouTube or to the spreadsheet. *)
Theorem empty_batch env st :
  init_clients env = Ok tt ->
  (forall n k today, messages_ideas env n k today = Ok []) ->
  exists st',
    run_pipeline env st = (Ok tt, st') /\
    stdout st' =
      stdout st ++ [GeneratedIdeas 0; Summary 0 0 0; NoVideosPublished] /\
    stats st' = mkStats 0 0 0 /\
    claude_calls st' = S (claude_calls st) /\
    hf_calls st' = hf_calls st /\
    youtube_calls st' = youtube_calls st /\
    sheets_calls st' = sheets_calls st /\
    sheet st' = sheet st /\
    files st' = files st.
Proof.
  intros Hinit Hideas.
  unfold run_pipeline, initialize, generate_ideas, summary, strftime, bind,
    call, try_except, of_result, ret, print, modify, gets.
  rewrite Hinit. cbn [fst snd]. rewrite Hideas. simpl.
  eexists. split; [reflexivity|]. simpl. rewrite <- !app_assoc.
  repeat split; reflexivity.
Qed.

Lemma empty_batch_witness :
  exists st',
    run_pipeline env_empty st0 = (Ok tt, st') /\
    stdout st' = [GeneratedIdeas 0; Summary 0 0 0; NoVideosPublished] /\
    hf_calls st' = 0%nat.
Proof.
  destruct (empty_batch env_empty st0 eq_refl (fun _ _ _ => eq_refl))
    as (st' & Hrun & Hout & _ & _ & Hhf & _).
  exists st'. auto.
Defined.

(** X19: an idea that lacks one of the keys printed before the [try]
    block ([title], [hook], [target_audience], [virality_score]) stops the
    loop: the [KeyError] of the first missing key leaves the loop, the
    idea has only been counted in [total], no stage has run, and the ideas
    after it are not attempted. *)
Theorem undisplayable_idea_aborts env i idea rest st :
  title idea = None \/ hook idea = None \/
  target_audience idea = None \/ virality_score idea = None ->
  let key :=
    match title idea, hook idea, target_audience idea with
    | None, _, _ => "title"
    | Some _, None, _ => "hook"
    | Some _, Some _, None => "target_audience"
    | Some _, Some _, Some _ => "virality_score"
    end in
  process_ideas env i (idea :: rest) st =
    (Raise (Exception ("'" +:+ key +:+ "'")), add_total st).
Proof.
  intros Hmissing. cbn [process_ideas].
  unfold process_idea, bind, modify, getitem, ret, raise.
  destruct (title idea) as [t|]; [|reflexivity].
  destruct (hook idea) as [h|]; [|reflexivity].
  destruct (target_audience idea) as [a|]; [|reflexivity].
  destruct (virality_score idea) as [v|]; [|reflexivity].
  destruct Hmissing as [H|[H|[H|H]]]; discriminate.
Qed.

Lemma undisplayable_idea_aborts_witness :
  process_ideas env_warm 1
    [mkIdea (Some "No score") (Some "d") (Some "h") (Some "a") None (Some []);
     sample_idea "Never reached"] st0 =
  (Raise (Exception "'virality_score'"), add_total st0).
Proof.
  apply (undisplayable_idea_aborts env_warm 1
           (mkIdea (Some "No score") (Some "d") (Some "h") (Some "a") None
                   (Some []))
           [sample_idea "Never reached"] st0).
  right. right. right. reflexivity.
Defined.

(** X20: the video file of an idea is removed exactly when the upload
    succeeds.  In a run that is not interrupted, once [generate] has
    written the file, [process_idea] ends normally; the file is deleted
    when [upload] returns, and it is still on disk, with every other file,
    when [upload] raises. *)
Theorem video_removed_only_when_published env i idea st video_prompt st1
    video_path st2 r3 st3 :
  no_interrupt env ->
  displayable idea ->
  generate_video_prompt env idea (add_total st) = (Ok video_prompt, st1) ->
  generate env video_prompt MAX_RETRIES st1 = (Ok (Some video_path), st2) ->
  upload env video_path idea st2 = (r3, st3) ->
  exists st',
    process_idea env i idea st = (Ok tt, st') /\
    is_Some (files st2 !! video_path) /\
    files st' = match r3 with
                | Ok _ => delete video_path (files st2)
                | Raise _ => files st2
                end.
Proof.
  intros quiet Hidea Hprompt Hgen Hup.
  pose proof (generate_writes _ _ _ _ _ _ Hgen) as Hfile.
  destruct r3 as [ids|[e|]].
  - destruct (published_video_is_removed env i idea st video_prompt st1
                video_path st2 ids st3 quiet Hidea Hprompt Hgen Hup)
      as (st' & Hrun & Hfiles & _).
    exists st'. auto.
  - destruct Hidea as ([t Ht] & [h Hh] & [a Ha] & [v Hv]).
    destruct (upload_files env video_path idea st2) as [Hf3 _].
    rewrite Hup in Hf3. simpl in Hf3.
    set (st4 := set_stdout (stdout st3 ++ [VideoFailed i e]) (add_failed st3)).
    destruct (log_error_ok env quiet idea e st4) as (st' & Hlog & _).
    destruct (log_error_files env idea e st4) as [Hf _].
    rewrite Hlog in Hf. simpl in Hf.
    exists st'. split; [|split; [exact Hfile | congruence]].
    unfold process_idea. rewrite Ht, Hh, Ha, Hv.
    unfold bind at 1 2 3 4 5, modify, getitem, ret, try_except, try_block.
    unfold bind at 1. rewrite Hprompt. unfold bind at 1. rewrite Hgen.
    unfold bind at 1. rewrite Hup.
    unfold except_block, bind, print, modify. exact Hlog.
  - exfalso. destruct (tame_upload env quiet video_path idea st2) as [_ Hq].
    rewrite Hup in Hq. apply Hq. reflexivity.
Qed.

Lemma video_removed_only_when_published_witness :
  exists st',
    process_idea env_second_refused 1 (sample_idea "Read more") st0 =
      (Ok tt, st') /\
    files st' !! "video_0.mp4" = Some "mp4".
Proof.
  destruct (video_removed_only_when_published env_second_refused 1
              (sample_idea "Read more") st0
              "Cinematic shot: Read more"
              (set_claude_calls 1 (add_total st0))
              "video_0.mp4"
              (snd (generate env_second_refused "Cinematic shot: Read more"
                      MAX_RETRIES (set_claude_calls 1 (add_total st0))))
              (Raise (Exception "quotaExceeded"))
              (snd (upload env_second_refused "video_0.mp4"
                      (sample_idea "Read more")
                      (snd (generate env_second_refused
                              "Cinematic shot: Read more" MAX_RETRIES
                              (set_claude_calls 1 (add_total st0)))))))
    as (st' & Hrun & _ & Hfiles).
  - exact env_second_refused_quiet.
  - apply sample_idea_displayable.
  - reflexivity.
  - reflexivity.
  - reflexivity.
  - exists st'. split; [exact Hrun|]. rewrite Hfiles. reflexivity.
Defined.

(** * Cleaning the answer of the idea model *)

Lemma string_app_cons a s1 s2 : String a s1 +:+ s2 = String a (s1 +:+ s2).
Proof. reflexivity. Qed.

Lemma prefix_app_same sep rest : String.prefix sep (sep +:+ rest) = true.
Proof.
  induction sep as [|a sep IH]; [destruct rest; reflexivity|].
  rewrite string_app_cons. cbn [String.prefix].
  destruct (Ascii.ascii_dec a a); [exact IH | congruence].
Qed.

Lemma prefix_shorter p q s :
  String.prefix (p +:+ q) s = true -> String.prefix p s = true.
Proof.
  revert s. induction p as [|a p IH]; intros s; [destruct s; reflexivity|].
  rewrite string_app_cons. destruct s as [|b s]; cbn [String.prefix]; auto.
  destruct (Ascii.ascii_dec a b); auto.
Qed.

Lemma str_drop_app sep rest :
  str_drop (String.length sep) (sep +:+ rest) = rest.
Proof.
  induction sep as [|a sep IH]; [destruct rest; reflexivity|].
  rewrite string_app_cons. exact IH.
Qed.

Lemma cut_unfold sep s :
  cut sep s =
  if String.prefix sep s then
    (EmptyString, Some (str_drop (String.length sep) s))
  else
    match s with
    | EmptyString => (EmptyString, None)
    | String a s' => let (before, rest) := cut sep s' in (String a before, rest)
    end.
Proof. destruct s; reflexivity. Qed.

Lemma contains_unfold sep s :
  contains sep s =
  if String.prefix sep s then true
  else match s with
       | EmptyString => false
       | String _ s' => contains sep s'
       end.
Proof.
  unfold contains. rewrite cut_unfold.
  destruct (String.prefix sep s); [reflexivity|].
  destruct s as [|a s]; [reflexivity|].
  destruct (cut sep s) as [before rest]. reflexivity.
Qed.

(** Where a text holds [p +:+ q] it holds [p]. *)
Lemma contains_shorter p q s :
  contains (p +:+ q) s = true -> contains p s = true.
Proof.
  induction s as [|a s IH]; rewrite (contains_unfold (p +:+ q)),
    (contains_unfold p).
  - destruct (String.prefix (p +:+ q) "") eqn:Hpq; [|discriminate].
    rewrite (prefix_shorter p q _ Hpq). reflexivity.
  - destruct (String.prefix (p +:+ q) (String a s)) eqn:Hpq.
    + rewrite (prefix_shorter p q _ Hpq). reflexivity.
    + destruct (String.prefix p (String a s)); auto.
Qed.

(** The first occurrence of a separator whose first character does not
    occur before it. *)
Lemma cut_app c sep pre rest :
  c ∉ String.list_ascii_of_string pre ->
  cut (String c sep) (pre +:+ String c sep +:+ rest) = (pre, Some rest).
Proof.
  induction pre as [|a pre IH]; intros Hpre.
  - change ("" +:+ String c sep +:+ rest) with (String c sep +:+ rest).
    rewrite cut_unfold, prefix_app_same, str_drop_app. reflexivity.
  - simpl in Hpre. apply not_elem_of_cons in Hpre as [Hne Hpre].
    rewrite string_app_cons, cut_unfold. cbn [String.prefix].
    destruct (Ascii.ascii_dec c a) as [->|_]; [congruence|].
    rewrite (IH Hpre). reflexivity.
Qed.

Lemma cut_some_nonempty sep s rest :
  sep <> EmptyString -> snd (cut sep s) = Some rest ->
  exists n, String.length s = S n.
Proof.
  intros Hsep Hcut. destruct s as [|a s]; [|simpl; eauto].
  destruct sep; [congruence | simpl in Hcut; discriminate].
Qed.

Lemma split_fuel_head fuel sep s :
  item (split_fuel fuel sep s) 0 = Ok (fst (cut sep s)).
Proof.
  destruct fuel; cbn [split_fuel];
    destruct (cut sep s) as [before [rest|]]; reflexivity.
Qed.

Lemma item_split_0 sep s : item (split sep s) 0 = Ok (fst (cut sep s)).
Proof. apply split_fuel_head. Qed.

Lemma item_split_1 sep s rest :
  sep <> EmptyString -> snd (cut sep s) = Some rest ->
  item (split sep s) 1 = Ok (fst (cut sep rest)).
Proof.
  intros Hsep Hcut. unfold split.
  destruct (cut_some_nonempty sep s rest Hsep Hcut) as [n ->].
  cbn [split_fuel]. destruct (cut sep s) as [before r]. simpl in Hcut.
  subst r. exact (split_fuel_head n sep rest).
Qed.

Lemma prefix_cons_inv a p b s :
  String.prefix (String a p) (String b s) = true ->
  a = b /\ String.prefix p s = true.
Proof.
  cbn [String.prefix]. destruct (Ascii.ascii_dec a b); [auto | discriminate].
Qed.

Lemma prefix_cons_ne a p b s :
  a <> b -> String.prefix (String a p) (String b s) = false.
Proof.
  intros Hne. cbn [String.prefix].
  destruct (Ascii.ascii_dec a b); [congruence | reflexivity].
Qed.

(** A separator whose first character does not occur is not found. *)
Lemma cut_absent c sep s :
  c ∉ String.list_ascii_of_string s -> cut (String c sep) s = (s, None).
Proof.
  induction s as [|a s IH]; intros Hs; [reflexivity|].
  simpl in Hs. apply not_elem_of_cons in Hs as [Hne Hs].
  rewrite cut_unfold, (prefix_cons_ne c sep a s Hne), (IH Hs). reflexivity.
Qed.

(** The piece between an opening [```json] and the next [```json], cut at
    its first [```]: the text up to the closing fence, unless a backquote
    follows that fence. *)
Lemma fenced_piece body post :
  "`"%char ∉ String.list_ascii_of_string body ->
  String.prefix "`" post = false ->
  fst (cut "```" (fst (cut "```json" (body +:+ "```" +:+ post)))) = body.
Proof.
  intros Hbody Hpost. induction body as [|a body IH].
  - change ("" +:+ "```" +:+ post)
      with (String "`" (String "`" (String "`" post))).
    rewrite (cut_unfold "```json").
    destruct (String.prefix "```json" _) eqn:H0; [reflexivity|].
    rewrite (cut_unfold "```json" (String "`" (String "`" post))).
    destruct (String.prefix "```json" (String "`" (String "`" post))) eqn:H1.
    { apply prefix_cons_inv in H1 as [_ H1].
      apply prefix_cons_inv in H1 as [_ H1].
      apply (prefix_shorter "`" "json") in H1. congruence. }
    rewrite (cut_unfold "```json" (String "`" post)).
    destruct (String.prefix "```json" (String "`" post)) eqn:H2.
    { apply prefix_cons_inv in H2 as [_ H2].
      apply (prefix_shorter "`" "`json") in H2. congruence. }
    destruct (cut "```json" post) as [before rest]. cbn [fst].
    change (String "`" (String "`" (String "`" before)))
      with ("```" +:+ before).
    rewrite cut_unfold, prefix_app_same. reflexivity.
  - simpl in Hbody. apply not_elem_of_cons in Hbody as [Hne Hbody].
    specialize (IH Hbody).
    rewrite string_app_cons, (cut_unfold "```json").
    rewrite (prefix_cons_ne "`" "``json" a _ Hne).
    destruct (cut "```json" (body +:+ "```" +:+ post)) as [before rest].
    cbn [fst] in *. rewrite cut_unfold, (prefix_cons_ne "`" "``" a _ Hne).
    destruct (cut "```" before) as [before' rest']. cbn [fst] in *.
    congruence.
Qed.

(** What the cleaning computes, in terms of first occurrences. *)
Lemma clean_markdown_cut content :
  clean_markdown content =
  match snd (cut "```json" content) with
  | Some rest => Ok (strip (fst (cut "```" (fst (cut "```json" rest)))))
  | None =>
      match snd (cut "```" content) with
      | Some rest => Ok (strip (fst (cut "```" (fst (cut "```" rest)))))
      | None => Ok content
      end
  end.
Proof.
  unfold clean_markdown, contains.
  destruct (snd (cut "```json" content)) as [rest|] eqn:Hjson.
  - rewrite (item_split_1 "```json" _ rest ltac:(discriminate) Hjson).
    rewrite item_split_0. reflexivity.
  - destruct (snd (cut "```" content)) as [rest|] eqn:Hfence; [|reflexivity].
    rewrite (item_split_1 "```" _ rest ltac:(discriminate) Hfence).
    rewrite item_split_0. reflexivity.
Qed.

(** X21: cleaning never raises: the index [1] that follows a [split] is
    always in range, because the separator was found by the [in] test; and
    the index [0] always is. *)
Theorem clean_markdown_never_raises text :
  exists json, response_json text = Ok json.
Proof.
  unfold response_json. rewrite clean_markdown_cut.
  destruct (snd (cut "```json" (strip text))); eauto.
  destruct (snd (cut "```" (strip text))); eauto.
Qed.

(** X22: an answer without a Markdown fence is handed to [json.loads] as
    it is, only stripped of the white space around it. *)
Theorem unfenced_answer_is_kept text :
  contains "```" (strip text) = false ->
  response_json text = Ok (strip text).
Proof.
  intros Hfence. unfold response_json. rewrite clean_markdown_cut.
  assert (Hjson : contains "```json" (strip text) = false).
  { destruct (contains "```json" (strip text)) eqn:H; [|reflexivity].
    apply (contains_shorter "```" "json") in H. congruence. }
  unfold contains in Hfence, Hjson.
  destruct (snd (cut "```json" (strip text))); [discriminate|].
  destruct (snd (cut "```" (strip text))); [discriminate | reflexivity].
Qed.

Lemma unfenced_answer_is_kept_witness :
  response_json "  {1: 2}
" = Ok "{1: 2}".
Proof.
  apply (unfenced_answer_is_kept "  {1: 2}
").
  reflexivity.
Defined.

(** X23: a fenced answer is unwrapped.  When the stripped answer is
    [pre ```json body ``` post], neither [pre] nor [body] holds a
    backquote and [post] does not begin with one, the text handed to
    [json.loads] is [body], stripped; what precedes the opening fence and
    what follows the closing fence is dropped.  The same holds for a fence
    without the word [json], whatever follows it, provided the answer
    holds no [```json] at all. *)
Theorem fenced_answer_is_unwrapped text pre body post :
  "`"%char ∉ String.list_ascii_of_string pre ->
  "`"%char ∉ String.list_ascii_of_string body ->
  (strip text = pre +:+ "```json" +:+ body +:+ "```" +:+ post ->
   String.prefix "`" post = false ->
   response_json text = Ok (strip body)) /\
  (strip text = pre +:+ "```" +:+ body +:+ "```" +:+ post ->
   contains "```json" (strip text) = false ->
   response_json text = Ok (strip body)).
Proof.
  intros Hpre Hbody. split.
  - intros Htext Hpost. unfold response_json.
    rewrite clean_markdown_cut, Htext.
    rewrite (cut_app "`" "``json" pre _ Hpre). cbn [snd].
    rewrite (fenced_piece body post Hbody Hpost). reflexivity.
  - intros Htext Hjson. unfold response_json. rewrite clean_markdown_cut.
    unfold contains in Hjson.
    destruct (snd (cut "```json" (strip text))); [discriminate|].
    rewrite Htext, (cut_app "`" "``" pre _ Hpre). cbn [snd].
    rewrite (cut_app "`" "``" body _ Hbody). cbn [fst].
    rewrite (cut_absent "`" "``" body Hbody). reflexivity.
Qed.

Lemma fenced_answer_is_unwrapped_witness :
  response_json "Here you go:
```json
{1: 2}
```
Enjoy!" = Ok "{1: 2}".
Proof.
  destruct (fenced_answer_is_unwrapped "Here you go:
```json
{1: 2}
```
Enjoy!" "Here you go:
" "
{1: 2}
" "
Enjoy!") as [H _].
  - cbn [String.list_ascii_of_string]. rewrite !elem_of_cons, elem_of_nil.
    intuition discriminate.
  - cbn [String.list_ascii_of_string]. rewrite !elem_of_cons, elem_of_nil.
    intuition discriminate.
  - apply H; reflexivity.
Defined.

Lemma prefix_app_mono sep p t :
  String.prefix sep p = true -> String.prefix sep (p +:+ t) = true.
Proof.
  revert p. induction sep as [|a sep IH]; intros p; [destruct (p +:+ t); auto|].
  destruct p as [|b p]; [discriminate|]. rewrite string_app_cons.
  cbn [String.prefix]. destruct (Ascii.ascii_dec a b); auto.
Qed.

(** A separator that a text does not hold is held by none of its
    beginnings and by none of its ends. *)
Lemma contains_app_l sep p t :
  contains sep (p +:+ t) = false -> contains sep p = false.
Proof.
  induction p as [|a p IH]; rewrite (contains_unfold sep (_ +:+ t)).
  - rewrite (contains_unfold sep "").
    destruct (String.prefix sep "") eqn:Hp; [|reflexivity].
    rewrite (prefix_app_mono sep "" t Hp). discriminate.
  - rewrite (contains_unfold sep (String a p)).
    destruct (String.prefix sep (String a p)) eqn:Hp.
    + rewrite (prefix_app_mono sep _ t Hp). discriminate.
    + rewrite string_app_cons.
      destruct (String.prefix sep (String a (p +:+ t))); [discriminate|].
      exact IH.
Qed.

Lemma contains_lstrip sep s :
  contains sep s = false -> contains sep (lstrip s) = false.
Proof.
  induction s as [|a s IH]; [auto|]. cbn [lstrip].
  destruct (isspace a); [|auto]. rewrite (contains_unfold sep (String a s)).
  destruct (String.prefix sep (String a s)); [discriminate | exact IH].
Qed.

Lemma rstrip_app s : exists t, s = rstrip s +:+ t.
Proof.
  induction s as [|a s [t IH]]; [exists ""; reflexivity|]. cbn [rstrip].
  destruct (rstrip s) as [|b r].
  - destruct (isspace a).
    + exists (String a s). reflexivity.
    + exists s. reflexivity.
  - exists t. rewrite string_app_cons. congruence.
Qed.

Lemma contains_strip sep s :
  contains sep s = false -> contains sep (strip s) = false.
Proof.
  intros Hs. unfold strip. apply contains_lstrip in Hs.
  destruct (rstrip_app (lstrip s)) as [t Ht]. rewrite Ht in Hs.
  exact (contains_app_l _ _ _ Hs).
Qed.

Lemma cut_fst_app sep s : exists t, s = fst (cut sep s) +:+ t.
Proof.
  induction s as [|a s [t IH]]; rewrite cut_unfold.
  - destruct (String.prefix sep ""); exists ""; reflexivity.
  - destruct (String.prefix sep (String a s)); [eexists; reflexivity|].
    destruct (cut sep s) as [before rest]. cbn [fst] in *.
    exists t. rewrite string_app_cons. congruence.
Qed.

(** The text before the first occurrence of a separator does not hold
    it. *)
Lemma cut_fst_free a sep s :
  contains (String a sep) (fst (cut (String a sep) s)) = false.
Proof.
  induction s as [|b s IH]; [reflexivity|]. rewrite cut_unfold.
  destruct (String.prefix (String a sep) (String b s)) eqn:Hp; [reflexivity|].
  destruct (cut_fst_app (String a sep) s) as [t Ht].
  destruct (cut (String a sep) s) as [before rest]. cbn [fst] in *.
  rewrite contains_unfold, IH.
  destruct (String.prefix (String a sep) (String b before)) eqn:Hq;
    [|reflexivity].
  apply (prefix_app_mono _ _ t) in Hq. rewrite string_app_cons, <- Ht in Hq.
  congruence.
Qed.

(** X24: once a fence has been seen, no fence is left: when the stripped
    answer holds [```], the text handed to [json.loads] holds none,
    neither the opening fence nor a closing one. *)
Theorem cleaned_answer_has_no_fence text :
  contains "```" (strip text) = true ->
  exists json,
    response_json text = Ok json /\ contains "```" json = false.
Proof.
  intros Hfence. unfold response_json. rewrite clean_markdown_cut.
  destruct (snd (cut "```json" (strip text))) as [rest|].
  - eexists. split; [reflexivity|].
    apply contains_strip, (cut_fst_free "`" "``").
  - unfold contains in Hfence.
    destruct (snd (cut "```" (strip text))) as [rest|]; [|discriminate].
    eexists. split; [reflexivity|].
    apply contains_strip, (cut_fst_free "`" "``").
Qed.

Lemma cleaned_answer_has_no_fence_witness :
  exists json,
    response_json "```json [1] ``` and ```json [2] ```" = Ok json /\
    contains "```" json = false.
Proof.
  apply (cleaned_answer_has_no_fence "```json [1] ``` and ```json [2] ```").
  reflexivity.
Defined.

(** * Failure isolation *)









(** * Stopping a run *)

(** ** An interrupted call ends the computation *)












Section Stops.

Variable env : Env.
















End Stops.

(** ** What an interrupted run has printed and counted *)

#[local] Instance prints_no_preorder banned : PreOrder (prints_no banned).
Proof.
  split.
  - intros st. exists []. split; [symmetry; apply app_nil_r | constructor].
  - intros st1 st2 st3 (l1 & H1 & Hl1) (l2 & H2 & Hl2). exists (l1 ++ l2).
    split; [rewrite H2, H1, app_assoc; reflexivity|].
    apply Forall_app. auto.
Qed.

Lemma prints_no_silent banned st st' :
  stdout st' = stdout st -> prints_no banned st st'.
Proof.
  intros H. exists []. split; [rewrite H; symmetry; apply app_nil_r|].
  constructor.
Qed.


Lemma silent_prints_no banned {A} (m : M A) :
  preserves (unchanged_on stdout) m -> preserves (prints_no banned) m.
Proof. apply preserves_weaken. intros st st'. apply prints_no_silent. Qed.



Section Console.

Variable banned : line -> bool.
Variable env : Env.








Lemma generate_ideas_prints_no num_ideas :
  preserves (prints_no banned) (generate_ideas env num_ideas).
Proof.
  apply silent_prints_no, preserves_generate_ideas; [apply _ | ..];
    intros; reflexivity.
Qed.


End Console.




(** ** How a run ends *)











(** Two interrupted runs.  During the second request of the first idea:
    the idea is counted in [total] only, nothing says that it failed.
    During the first call of [log_error], after YouTube refused the first
    video: the idea is already counted and printed as failed, with the
    message of YouTube, and its record is missing from [Errors_Log]. *)
Lemma interrupted_runs :
  let r1 := run_pipeline env_interrupted st0 in
  let r2 := run_pipeline env_log_interrupted st0 in
  (fst r1 = Raise KeyboardInterrupt /\
   stats (snd r1) = mkStats 1 0 0 /\
   stdout (snd r1) = [GeneratedIdeas 3] /\
   rows_of "Errors_Log" (snd r1) = []) /\
  (fst r2 = Raise KeyboardInterrupt /\
   stats (snd r2) = mkStats 1 0 1 /\
   stdout (snd r2) = [GeneratedIdeas 3; VideoFailed 1 "quotaExceeded"] /\
   rows_of "Errors_Log" (snd r2) = []).
Proof. vm_compute. repeat split. Qed.
